(** * Face registration and recognition orchestrator

    Shallow embedding of [app_docker_compose/app/inference.py]
    ([get_registered_face], [unregister_face], [register_face],
    [recognize_face]), of [app_docker_compose/app/api/milvus.py]
    ([get_milvus_connec], [get_registered_person]) and of
    [app_docker_compose/app/routes/recognize_person.py]
    ([RecognizePersonProcessTask], [recognize_person_file],
    [recognize_person_url]).

    The Python functions talk to four external services: the inference
    server ([run_inference]), the Milvus collection ([collection]), the
    MySQL connection ([mysql_conn]) and Redis ([redis_conn]).  The services
    are modelled as in-memory tables held in a [World]; what a service
    answers during one call of an orchestrator function (the dictionary
    returned by [run_inference], the hits returned by [collection.search],
    and which service calls raise their library's exception) is given by
    an [Env].  Every service call is recorded as an [Event], so that the
    order of the calls and their failures can be stated. *)

From Stdlib Require Import QArith.
From stdpp Require Import gmap strings list fin_maps pretty.

Open Scope string_scope.
Open Scope Z_scope.
Open Scope list_scope.

(** ** Python values *)

(** The exception classes that occur in the two modules: the three
    library exceptions caught by the code, and the built-in errors raised
    by subscripting and comparison. *)
Inductive exn :=
| MilvusException (msg : string)
| PymysqlError (msg : string)
| RedisError (msg : string)
| KeyError (key : string)
| IndexError
| TypeError.

(** Distances, thresholds and vector components are Python floats; only
    their order is used, so a float is represented by the rational it
    denotes. *)
Inductive pyval :=
| VNone
| VInt (z : Z)
| VStr (s : string)
| VArray (rows : list (list Q))
| VExn (e : exn).

#[global] Instance exn_eq_dec : EqDecision exn.
Proof. solve_decision. Defined.

#[global] Instance Q_eq_dec : EqDecision Q.
Proof. solve_decision. Defined.

#[global] Instance pyval_eq_dec : EqDecision pyval.
Proof. solve_decision. Defined.

(** A Python [dict] with string keys. *)
Abbreviation dict := (gmap string pyval).

(** [bool(v)] *)
Definition truthy (v : pyval) : bool :=
  match v with
  | VNone => false
  | VInt z => negb (Z.eqb z 0)
  | VStr s => negb (String.eqb s "")
  | VArray rows => match rows with [] => false | _ => true end
  | VExn _ => true
  end.

(** [a == b] on the values compared in the code (integers and strings). *)
Definition py_eq (a b : pyval) : bool := bool_decide (a = b).

(** [str(v)], as used by the f-strings.  The text of an array is not
    modelled: no message of the code formats one. *)
Definition py_str (v : pyval) : string :=
  match v with
  | VNone => "None"
  | VInt z => pretty z
  | VStr s => s
  | VArray _ => "[...]"
  | VExn (MilvusException msg) => msg
  | VExn (PymysqlError msg) => msg
  | VExn (RedisError msg) => msg
  | VExn (KeyError key) => key
  | VExn IndexError => "list index out of range"
  | VExn TypeError => "unsupported operand"
  end.

(** [a > b] on floats. *)
Definition Qgt_bool (a b : Q) : bool := negb (Qle_bool a b).

(** ** The services *)

(** One entity of the Milvus collection [faces]: the embedding and the
    [person_id] field (the auto-generated primary key is not used by the
    code). *)
Record Row := { row_embedding : list Q; row_person_id : pyval }.

(** One hit of a search: its distance and the requested output fields. *)
Record Hit := { hit_distance : Q; hit_entity : dict }.

(** The hits of one query vector; [collection.search] returns one such
    group per query vector. *)
Abbreviation Hits := (list Hit).

(** [hits.distances] *)
Definition distances (hits : Hits) : list Q := map hit_distance hits.

Record World := {
  collection : list Row;              (* entities of the Milvus collection *)
  mysql_pending : list (list pyval);  (* rows executed on [mysql_conn], not yet committed *)
  mysql_table : list (list pyval);    (* committed rows of the person table *)
  redis : gmap string (dict * Z)      (* hashes with their time to live *)
}.

Inductive Call :=
| RunInference (file_path model_name : string) (threshold : Q)
| MilvusQuery (person_id : pyval)
| MilvusInsert (face_vector : list Q) (person_id : pyval)
| MilvusFlush
| MilvusDelete (person_id : pyval)
| MilvusSearch (data : pyval)
| MysqlCursor
| MysqlExecute (values : list pyval)
| MysqlCommit
| MysqlCursorClose
| RedisHset (key : string) (mapping : dict)
| RedisExpire (key : string) (ttl : Z).

(** A service call together with the exception it raised, if any. *)
Abbreviation Event := (Call * option exn)%type.

(** What the services answer during one call of an orchestrator
    function.  A Milvus call that fails raises [MilvusException], a MySQL
    call [pymysql.Error], a Redis call a Redis error; the field gives the
    message. *)
Record Env := {
  run_inference : string → string → Q → dict;
  search_hits : pyval → list Hits;
  query_fault : option string;
  insert_fault : option string;
  flush_fault : option string;
  delete_fault : option string;
  search_fault : option string;
  execute_fault : option string;
  commit_fault : option string;
  hset_fault : option string;
  expire_fault : option string
}.

(** ** Computations: state, exceptions and the record of service calls *)

Inductive outcome (A : Type) :=
| Return (a : A)
| Raise (e : exn).
Arguments Return {A} a.
Arguments Raise {A} e.

Definition M (A : Type) : Type := World → outcome A * World * list Event.

#[global] Instance M_ret : MRet M := λ A a w, (Return a, w, []).

#[global] Instance M_bind : MBind M := λ A B f m w,
  match m w with
  | (Return a, w', evs) =>
      let '(r, w'', evs') := f a w' in (r, w'', evs ++ evs')
  | (Raise e, w', evs) => (Raise e, w', evs)
  end.

Definition raise {A} (e : exn) : M A := λ w, (Raise e, w, []).

(** [try: body except <class> as e: handler e]; [handler] answers [None]
    for an exception that the [except] clause does not match. *)
Definition try_except {A} (body : M A) (handler : exn → option (M A)) : M A :=
  λ w,
  match body w with
  | (Return a, w', evs) => (Return a, w', evs)
  | (Raise e, w', evs) =>
      match handler e with
      | Some h => let '(r, w'', evs') := h w' in (r, w'', evs ++ evs')
      | None => (Raise e, w', evs)
      end
  end.

(** [try: body finally: final] *)
Definition try_finally {A} (body : M A) (final : M unit) : M A :=
  λ w,
  let '(r, w', evs) := body w in
  match final w' with
  | (Return _, w'', evs') => (r, w'', evs ++ evs')
  | (Raise e, w'', evs') => (Raise e, w'', evs ++ evs')
  end.

(** A service call: it is recorded, and either raises the injected
    exception (leaving the service as it was) or acts on the world. *)
Definition call {A} (c : Call) (fault : option exn) (act : World → A * World) : M A :=
  λ w,
  match fault with
  | Some e => (Raise e, w, [(c, Some e)])
  | None => let '(a, w') := act w in (Return a, w', [(c, None)])
  end.

(** [d[key]] *)
Definition getitem (d : dict) (key : string) : M pyval :=
  match d !! key with
  | Some v => mret v
  | None => raise (KeyError key)
  end.

(** [l[0]] *)
Definition index0 {A} (l : list A) : M A :=
  match l with
  | x :: _ => mret x
  | [] => raise IndexError
  end.

(** [v < 0] for an integer status code. *)
Definition py_lt0 (v : pyval) : M bool :=
  match v with
  | VInt z => mret (Z.ltb z 0)
  | _ => raise TypeError
  end.

(** [a[0].tolist()] for a two-dimensional array. *)
Definition first_row (v : pyval) : M (list Q) :=
  match v with
  | VArray rows => index0 rows
  | _ => raise TypeError
  end.

(** ** The service calls made by the code *)

Section Orchestrator.

Variable env : Env.

(** [run_inference(file_path, face_feat_model=model_name,
    face_det_thres=threshold, face_bbox_area_thres=0.10,
    face_count_thres=1, return_mode="json")] *)
Definition inference (file_path model_name : string) (threshold : Q) : M dict :=
  call (RunInference file_path model_name threshold) None
       (λ w, (run_inference env file_path model_name threshold, w)).

(** [collection.query(expr='person_id == {person_id}', offset=0, limit=10,
    output_fields=["person_id"])]: the entities with that [person_id]. *)
Definition collection_query (person_id : pyval) : M (list dict) :=
  call (MilvusQuery person_id) (MilvusException <$> query_fault env)
       (λ w, (take 10 ((λ r, {[ "person_id" := row_person_id r ]}) <$>
                       filter (λ r, row_person_id r = person_id) (collection w)), w)).

(** [collection.insert([[face_vector], [person_id]])] *)
Definition collection_insert (face_vector : list Q) (person_id : pyval) : M unit :=
  call (MilvusInsert face_vector person_id) (MilvusException <$> insert_fault env)
       (λ w, (tt, {| collection := collection w ++ [ {| row_embedding := face_vector;
                                                        row_person_id := person_id |} ];
                     mysql_pending := mysql_pending w;
                     mysql_table := mysql_table w;
                     redis := redis w |})).

(** [collection.flush()] *)
Definition collection_flush : M unit :=
  call MilvusFlush (MilvusException <$> flush_fault env) (λ w, (tt, w)).

(** [collection.delete('person_id in [{person_id}]')]: removes the
    entities with that [person_id]; there may be none. *)
Definition collection_delete (person_id : pyval) : M unit :=
  call (MilvusDelete person_id) (MilvusException <$> delete_fault env)
       (λ w, (tt, {| collection := filter (λ r, row_person_id r ≠ person_id) (collection w);
                     mysql_pending := mysql_pending w;
                     mysql_table := mysql_table w;
                     redis := redis w |})).

(** [collection.search(data=face_vector, anns_field="embedding",
    param=search_params, limit=3, output_fields=["person_id"])] *)
Definition collection_search (data : pyval) : M (list Hits) :=
  call (MilvusSearch data) (MilvusException <$> search_fault env)
       (λ w, (search_hits env data, w)).

(** [mysql_conn.cursor()] *)
Definition mysql_cursor : M unit :=
  call MysqlCursor None (λ w, (tt, w)).

(** [cursor.execute(query, values)] with the [INSERT] statement. *)
Definition cursor_execute (values : list pyval) : M unit :=
  call (MysqlExecute values) (PymysqlError <$> execute_fault env)
       (λ w, (tt, {| collection := collection w;
                     mysql_pending := mysql_pending w ++ [values];
                     mysql_table := mysql_table w;
                     redis := redis w |})).

(** [mysql_conn.commit()] *)
Definition mysql_commit : M unit :=
  call MysqlCommit (PymysqlError <$> commit_fault env)
       (λ w, (tt, {| collection := collection w;
                     mysql_pending := [];
                     mysql_table := mysql_table w ++ mysql_pending w;
                     redis := redis w |})).

(** [cursor.close()] *)
Definition cursor_close : M unit :=
  call MysqlCursorClose None (λ w, (tt, w)).

(** [redis_conn.hset(redis_key, mapping=person_data)] *)
Definition redis_hset (key : string) (mapping : dict) : M unit :=
  call (RedisHset key mapping) (RedisError <$> hset_fault env)
       (λ w, (tt, {| collection := collection w;
                     mysql_pending := mysql_pending w;
                     mysql_table := mysql_table w;
                     redis := <[ key := (match redis w !! key with
                                         | Some (h, ttl) => (mapping ∪ h, ttl)
                                         | None => (mapping, -1)
                                         end) ]> (redis w) |})).

(** [redis_conn.expire(redis_key, ttl)] *)
Definition redis_expire (key : string) (ttl : Z) : M unit :=
  call (RedisExpire key ttl) (RedisError <$> expire_fault env)
       (λ w, (tt, {| collection := collection w;
                     mysql_pending := mysql_pending w;
                     mysql_table := mysql_table w;
                     redis := match redis w !! key with
                              | Some (h, _) => <[ key := (h, ttl) ]> (redis w)
                              | None => redis w
                              end |})).

(** ** inference.py *)

(** [_MYSQL_PERSON_TABLE = os.getenv("MYSQL_PERSON_TABLE", default="person")] *)
Definition MYSQL_PERSON_TABLE : string := "person".

(** [except MilvusException as excep: handler excep] *)
Definition except_MilvusException {A} (handler : exn → M A) (e : exn) : option (M A) :=
  match e with
  | MilvusException _ => Some (handler e)
  | _ => None
  end.

(** [except pymysql.Error as e: handler e] *)
Definition except_pymysql_Error {A} (handler : exn → M A) (e : exn) : option (M A) :=
  match e with
  | PymysqlError _ => Some (handler e)
  | _ => None
  end.

Definition get_registered_face (person_id : pyval) : M dict :=
  try_except
    (results ← collection_query person_id;
     match results with
     | [] =>
         mret {[ "status" := VStr "failed";
                 "message" := VStr ("Person with id " +:+ py_str person_id +:+
                                    " not found in database") ]}
     | r :: _ =>
         found_person_name ← getitem r "person_id";
         mret {[ "status" := VStr "success";
                 "message" := VStr ("Person " +:+ py_str found_person_name +:+ " found") ]}
     end)
    (except_MilvusException (λ excep,
       mret {[ "status" := VStr "failed"; "message" := VExn excep ]})).

Definition unregister_face (person_id : pyval) : M dict :=
  try_except
    (_ ← collection_delete person_id;
     mret {[ "status" := VStr "success";
             "message" := VStr ("Person with id " +:+ py_str person_id +:+ " unregistered") ]})
    (except_MilvusException (λ excep,
       mret {[ "status" := VStr "failed";
               "message" := VStr ("Person with id " +:+ py_str person_id +:+
                                  " couldn't be unregistered") ]})).

Definition register_face (model_name file_path : string) (threshold : Q)
    (person_data : dict) : M dict :=
  pred_dict ← inference file_path model_name threshold;
  status ← getitem pred_dict "status";
  no_face ← (if py_eq status (VInt 0)
             then face_detections ← getitem pred_dict "face_detections";
                  mret (negb (truthy face_detections))
             else mret false);
  if (no_face : bool)
  then mret {[ "status" := VStr "failed";
               "message" := VStr "No faces were detected in the image" ]}
  else
  status ← getitem pred_dict "status";
  negative ← py_lt0 status;
  if (negative : bool)
  then mret (<[ "status" := VStr "failed" ]> pred_dict)
  else
  person_id ← getitem person_data "id";
  registered ← get_registered_face person_id;
  registered_status ← getitem registered "status";
  if py_eq registered_status (VStr "success")
  then mret {[ "status" := VStr "failed";
               "message" := VStr ("person with id " +:+ py_str person_id +:+
                                  " already exists in milvus db") ]}
  else
  face_feats ← getitem pred_dict "face_feats";
  face_vector ← first_row face_feats;
  inserted ← try_except
    (_ ← collection_insert face_vector person_id;
     _ ← getitem person_data "name";            (* the f-string of the print *)
     mret None)
    (except_MilvusException (λ e,
       mret (Some {[ "status" := VStr "failed";
                     "message" := VStr "milvus insertion error" ]})));
  match inserted with
  | Some d => mret d
  | None =>
  _ ← collection_flush;
  name ← getitem person_data "name";
  birthdate ← getitem person_data "birthdate";
  country ← getitem person_data "country";
  city ← getitem person_data "city";
  title ← getitem person_data "title";
  org ← getitem person_data "org";
  let values := [person_id; name; birthdate; country; city; title; org] in
  _ ← mysql_cursor;
  stored ← try_finally
    (try_except
       (_ ← cursor_execute values;
        _ ← mysql_commit;
        mret None)
       (except_pymysql_Error (λ e,
          _ ← unregister_face person_id;
          mret (Some {[ "status" := VStr "failed";
                        "message" := VStr "mysql insertion error" ]}))))
    cursor_close;
  match stored with
  | Some d => mret d
  | None =>
  let redis_key := MYSQL_PERSON_TABLE +:+ "_" +:+ py_str person_id in
  birthdate ← getitem person_data "birthdate";
  let person_data := <[ "birthdate" := VStr (py_str birthdate) ]> person_data in
  _ ← redis_hset redis_key person_data;
  _ ← redis_expire redis_key 3600;
  person_name ← getitem person_data "person_name";
  mret {[ "status" := VStr "success";
          "message" := VStr ("Person " +:+ py_str person_name +:+
                             " successfully registered") ]}
  end end.

(** [a < b] on lists of floats: the first position where the lists
    differ decides; a proper prefix is smaller. *)
Fixpoint list_lt (a b : list Q) : bool :=
  match a, b with
  | _, [] => false
  | [], _ :: _ => true
  | x :: a', y :: b' => if Qeq_bool x y then list_lt a' b' else Qgt_bool y x
  end.

(** [sorted(l, key=key)]: a stable sort that compares keys with [<].
    [insert_by] puts an element before the first one that is not smaller
    than it, so elements with equal keys keep their order. *)
Fixpoint insert_by {A} (key : A → list Q) (x : A) (l : list A) : list A :=
  match l with
  | [] => [x]
  | y :: l' => if list_lt (key y) (key x) then y :: insert_by key x l' else x :: l
  end.

Definition sorted {A} (l : list A) (key : A → list Q) : list A :=
  foldr (insert_by key) [] l.

(** [hit.entity.get(field)] *)
Definition entity_get (hit : Hit) (field : string) : pyval :=
  default VNone (hit_entity hit !! field).

Definition recognize_face (model_name file_path : string) (threshold : Q)
    (face_dist_threshold : Q) : M dict :=
  pred_dict ← inference file_path model_name threshold;
  status ← getitem pred_dict "status";
  no_face ← (if py_eq status (VInt 0)
             then face_detections ← getitem pred_dict "face_detections";
                  mret (negb (truthy face_detections))
             else mret false);
  if (no_face : bool)
  then mret {[ "status" := VStr "failed";
               "message" := VStr "No faces were detected in the image" ]}
  else
  status ← getitem pred_dict "status";
  negative ← py_lt0 status;
  if (negative : bool)
  then mret (<[ "status" := VStr "failed" ]> pred_dict)
  else
  face_vector ← getitem pred_dict "face_feats";
  results ← collection_search face_vector;
  match results with
  | [] => mret {[ "status" := VStr "failed";
                  "message" := VStr "No saved face entries found in database" ]}
  | _ :: _ =>
  let results := sorted results (λ k, distances k) in
  results_0 ← index0 results;
  face_dist ← index0 (distances results_0);
  results_0 ← index0 results;
  results_0_0 ← index0 results_0;
  let person_id := entity_get results_0_0 "person_id" in
  if Qgt_bool face_dist face_dist_threshold
  then mret {[ "status" := VStr "success";
               "message" := VStr "No similar faces were found in the database" ]}
  else mret {[ "status" := VStr "success";
               "message" := VStr ("Detected face matches id " +:+ py_str person_id);
               "match_id" := person_id ]}
  end.

(** The default of the parameter [face_dist_threshold]. *)
Definition default_face_dist_threshold : Q := 1 # 10.

(** ** api/milvus.py *)

(** [get_registered_person(milvus_conn, person_id)], with [milvus_conn]
    the collection of the world.  The function has no [return] after the
    test of [results]: when an entity is found it returns Python's [None],
    which is the [None] here. *)
Definition get_registered_person (person_id : pyval) : M (option dict) :=
  try_except
    (results ← collection_query person_id;
     match results with
     | [] =>
         mret (Some {[ "status" := VStr "failed";
                       "message" := VStr ("Person with id " +:+ py_str person_id +:+
                                          " not found in database") ]})
     | _ :: _ => mret None
     end)
    (except_MilvusException (λ excep,
       mret (Some {[ "status" := VStr "failed"; "message" := VExn excep ]}))).

End Orchestrator.

(** ** Running an operation *)

Definition result_of {A} (r : outcome A * World * list Event) : outcome A := r.1.1.
Definition world_of {A} (r : outcome A * World * list Event) : World := r.1.2.
Definition events_of {A} (r : outcome A * World * list Event) : list Event := r.2.

(** ** Vocabulary of the properties *)

(** The two-field dictionaries returned by the code. *)
Definition failed (message : string) : dict :=
  {[ "status" := VStr "failed"; "message" := VStr message ]}.

Definition success (message : string) : dict :=
  {[ "status" := VStr "success"; "message" := VStr message ]}.

Definition no_face_outcome : dict := failed "No faces were detected in the image".

Definition duplicate_outcome (person_id : pyval) : dict :=
  failed ("person with id " +:+ py_str person_id +:+ " already exists in milvus db").

Definition unregistered_outcome (person_id : pyval) : dict :=
  success ("Person with id " +:+ py_str person_id +:+ " unregistered").

Definition no_similar_outcome : dict :=
  success "No similar faces were found in the database".

Definition match_outcome (person_id : pyval) : dict :=
  {[ "status" := VStr "success";
     "message" := VStr ("Detected face matches id " +:+ py_str person_id);
     "match_id" := person_id ]}.

(** The dictionary returned when [run_inference] reports a negative
    status: its own dictionary, with ["status"] overwritten. *)
Definition extraction_error_outcome (pred_dict : dict) : dict :=
  <[ "status" := VStr "failed" ]> pred_dict.

(** An Outcome: a status that is ["success"] or ["failed"], and a message. *)
Definition well_formed (d : dict) : Prop :=
  (d !! "status" = Some (VStr "success") ∨ d !! "status" = Some (VStr "failed"))
  ∧ is_Some (d !! "message").

Definition returns_outcome (r : outcome dict) : Prop :=
  ∃ d, r = Return d ∧ well_formed d.

(** The metadata insert ([cursor.execute] or [mysql_conn.commit]) raised [e]. *)
Definition metadata_insert_failed (evs : list Event) (e : exn) : Prop :=
  (∃ values, (MysqlExecute values, Some e) ∈ evs) ∨ (MysqlCommit, Some e) ∈ evs.

(** The cache put ([hset] or [expire]) raised [e]. *)
Definition cache_put_failed (evs : list Event) (e : exn) : Prop :=
  (∃ key mapping, (RedisHset key mapping, Some e) ∈ evs)
  ∨ (∃ key ttl, (RedisExpire key ttl, Some e) ∈ evs).

(** The calls that only read: the inference and the lookup by identity. *)
Definition reads_only (c : Call) : bool :=
  match c with
  | RunInference _ _ _ | MilvusQuery _ => true
  | _ => false
  end.

(** The rejections of [register_face]: no face detected, the identity is
    registered already, or the extractor reported a negative status. *)
Definition rejection (pred_dict : dict) (r : outcome dict) : Prop :=
  r = Return no_face_outcome
  ∨ (∃ person_id, r = Return (duplicate_outcome person_id))
  ∨ (∃ z, pred_dict !! "status" = Some (VInt z) ∧ z < 0
          ∧ r = Return (extraction_error_outcome pred_dict)).

(** The candidate that [recognize_face] takes as the closest one:
    [results[0][0]] after the sort. *)
Definition selected (results : list Hits) : option Hit :=
  match sorted results (λ k, distances k) with
  | (hit :: _) :: _ => Some hit
  | _ => None
  end.

(** What [recognize_face] returns once the search has answered. *)
Definition decision (results : list Hits) (face_dist_threshold : Q) : outcome dict :=
  match results with
  | [] => Return (failed "No saved face entries found in database")
  | _ :: _ =>
      match selected results with
      | Some hit =>
          if Qgt_bool (hit_distance hit) face_dist_threshold
          then Return no_similar_outcome
          else Return (match_outcome (entity_get hit "person_id"))
      | None => Raise IndexError
      end
  end.

(** The ordering promised by the search: the first hit of a group is a
    closest one of the group. *)
Definition first_is_closest (hits : Hits) : Prop :=
  match hits with
  | [] => True
  | first :: rest => ∀ c, c ∈ rest → (hit_distance first <= hit_distance c)%Q
  end.

(** The first hit of [g] is at least as close as the first hit of [h]. *)
Definition group_le (g h : Hits) : Prop :=
  match g, h with
  | a :: _, b :: _ => (hit_distance a <= hit_distance b)%Q
  | _, _ => True
  end.

(** ** Concrete inputs *)

Definition no_faults (pred_dict : dict) (hits : list Hits) : Env :=
  {| run_inference := λ _ _ _, pred_dict;
     search_hits := λ _, hits;
     query_fault := None; insert_fault := None; flush_fault := None;
     delete_fault := None; search_fault := None; execute_fault := None;
     commit_fault := None; hset_fault := None; expire_fault := None |}.

Definition with_query_fault (fault : option string) (env : Env) : Env :=
  {| run_inference := run_inference env; search_hits := search_hits env;
     query_fault := fault; insert_fault := insert_fault env;
     flush_fault := flush_fault env; delete_fault := delete_fault env;
     search_fault := search_fault env; execute_fault := execute_fault env;
     commit_fault := commit_fault env; hset_fault := hset_fault env;
     expire_fault := expire_fault env |}.

Definition with_flush_fault (fault : option string) (env : Env) : Env :=
  {| run_inference := run_inference env; search_hits := search_hits env;
     query_fault := query_fault env; insert_fault := insert_fault env;
     flush_fault := fault; delete_fault := delete_fault env;
     search_fault := search_fault env; execute_fault := execute_fault env;
     commit_fault := commit_fault env; hset_fault := hset_fault env;
     expire_fault := expire_fault env |}.

Definition with_delete_fault (fault : option string) (env : Env) : Env :=
  {| run_inference := run_inference env; search_hits := search_hits env;
     query_fault := query_fault env; insert_fault := insert_fault env;
     flush_fault := flush_fault env; delete_fault := fault;
     search_fault := search_fault env; execute_fault := execute_fault env;
     commit_fault := commit_fault env; hset_fault := hset_fault env;
     expire_fault := expire_fault env |}.

Definition with_execute_fault (fault : option string) (env : Env) : Env :=
  {| run_inference := run_inference env; search_hits := search_hits env;
     query_fault := query_fault env; insert_fault := insert_fault env;
     flush_fault := flush_fault env; delete_fault := delete_fault env;
     search_fault := search_fault env; execute_fault := fault;
     commit_fault := commit_fault env; hset_fault := hset_fault env;
     expire_fault := expire_fault env |}.

Definition with_hset_fault (fault : option string) (env : Env) : Env :=
  {| run_inference := run_inference env; search_hits := search_hits env;
     query_fault := query_fault env; insert_fault := insert_fault env;
     flush_fault := flush_fault env; delete_fault := delete_fault env;
     search_fault := search_fault env; execute_fault := execute_fault env;
     commit_fault := commit_fault env; hset_fault := fault;
     expire_fault := expire_fault env |}.

Definition with_search_fault (fault : option string) (env : Env) : Env :=
  {| run_inference := run_inference env; search_hits := search_hits env;
     query_fault := query_fault env; insert_fault := insert_fault env;
     flush_fault := flush_fault env; delete_fault := delete_fault env;
     search_fault := fault; execute_fault := execute_fault env;
     commit_fault := commit_fault env; hset_fault := hset_fault env;
     expire_fault := expire_fault env |}.

Definition empty_world : World :=
  {| collection := []; mysql_pending := []; mysql_table := []; redis := ∅ |}.

(** A person with the columns of the [INSERT] statement. *)
Definition alice : dict :=
  {[ "id" := VInt 1; "name" := VStr "Alice"; "birthdate" := VStr "1990-01-01";
     "country" := VStr "NP"; "city" := VStr "Kathmandu"; "title" := VStr "Dr";
     "org" := VStr "ACME" ]}.

(** The same person with the extra key read by the last line of
    [register_face]. *)
Definition alice_named : dict := <[ "person_name" := VStr "Alice" ]> alice.

(** Results of [run_inference]: one face, no face, an internal error. *)
Definition one_face : dict :=
  {[ "status" := VInt 0; "face_detections" := VArray [[0 # 1; 0 # 1; 1 # 2; 1 # 2]];
     "face_feats" := VArray [[1 # 2; 1 # 4]] ]}.

Definition no_face : dict :=
  {[ "status" := VInt 0; "face_detections" := VArray []; "face_feats" := VArray [] ]}.

Definition candidate (distance : Q) (person_id : Z) : Hit :=
  {| hit_distance := distance; hit_entity := {[ "person_id" := VInt person_id ]} |}.

(** The three candidates of one query vector, not in ascending order. *)
Definition unordered_hits : list Hits :=
  [[candidate (2 # 10) 3; candidate (5 # 100) 7; candidate (3 # 10) 9]].

(** The world after Alice has been stored by a first registration. *)
Definition alice_row : Row := {| row_embedding := [1 # 2; 1 # 4]; row_person_id := VInt 1 |}.

Definition alice_stored : World :=
  {| collection := [alice_row]; mysql_pending := []; mysql_table := []; redis := ∅ |}.

(** The world left by a first registration of Alice that reported success. *)
Definition after_alice : World :=
  world_of (register_face (no_faults one_face []) "m1" "img.jpg" (1 # 2)
              alice_named empty_world).

(** The three candidates, one result group each. *)
Definition grouped_hits : list Hits :=
  [[candidate (2 # 10) 3]; [candidate (5 # 100) 7]; [candidate (3 # 10) 9]].

(** ** Further definitions *)

(** The part of [register_face] that follows the duplicate check (from
    [face_vector = pred_dict["face_feats"][0].tolist()] to the end), as a
    computation of its own; [register_face_unfold] shows that
    [register_face] is its first part followed by this one. *)
Definition store_person (env : Env) (pred_dict person_data : dict) (person_id : pyval)
    : M dict :=
  face_feats ← getitem pred_dict "face_feats";
  face_vector ← first_row face_feats;
  inserted ← try_except
    (_ ← collection_insert env face_vector person_id;
     _ ← getitem person_data "name";            (* the f-string of the print *)
     mret None)
    (except_MilvusException (λ e,
       mret (Some {[ "status" := VStr "failed";
                     "message" := VStr "milvus insertion error" ]})));
  match inserted with
  | Some d => mret d
  | None =>
  _ ← collection_flush env;
  name ← getitem person_data "name";
  birthdate ← getitem person_data "birthdate";
  country ← getitem person_data "country";
  city ← getitem person_data "city";
  title ← getitem person_data "title";
  org ← getitem person_data "org";
  let values := [person_id; name; birthdate; country; city; title; org] in
  _ ← mysql_cursor;
  stored ← try_finally
    (try_except
       (_ ← cursor_execute env values;
        _ ← mysql_commit env;
        mret None)
       (except_pymysql_Error (λ e,
          _ ← unregister_face env person_id;
          mret (Some {[ "status" := VStr "failed";
                        "message" := VStr "mysql insertion error" ]}))))
    cursor_close;
  match stored with
  | Some d => mret d
  | None =>
  let redis_key := MYSQL_PERSON_TABLE +:+ "_" +:+ py_str person_id in
  birthdate ← getitem person_data "birthdate";
  let person_data := <[ "birthdate" := VStr (py_str birthdate) ]> person_data in
  _ ← redis_hset env redis_key person_data;
  _ ← redis_expire env redis_key 3600;
  person_name ← getitem person_data "person_name";
  mret {[ "status" := VStr "success";
          "message" := VStr ("Person " +:+ py_str person_name +:+
                             " successfully registered") ]}
  end end.
(** The run [r] with the events [evs] in front of its own. *)
Definition after_events {A} (evs : list Event) (r : outcome A * World * list Event)
    : outcome A * World * list Event :=
  (r.1.1, r.1.2, evs ++ r.2).

(** The columns of the [INSERT] statement, in its order. *)
Definition columns : list string :=
  ["id"; "name"; "birthdate"; "country"; "city"; "title"; "org"].

Definition with_insert_fault (fault : option string) (env : Env) : Env :=
  {| run_inference := run_inference env; search_hits := search_hits env;
     query_fault := query_fault env; insert_fault := fault;
     flush_fault := flush_fault env; delete_fault := delete_fault env;
     search_fault := search_fault env; execute_fault := execute_fault env;
     commit_fault := commit_fault env; hset_fault := hset_fault env;
     expire_fault := expire_fault env |}.

(** Alice without a birth date. *)
Definition alice_undated : dict := delete "birthdate" alice.

(** An extractor result with two descriptors. *)
Definition two_faces : dict :=
  {[ "status" := VInt 1;
     "face_detections" := VArray [[0 # 1; 0 # 1; 1 # 2; 1 # 2]; [1 # 2; 1 # 2; 1 # 1; 1 # 1]];
     "face_feats" := VArray [[1 # 2; 1 # 4]; [3 # 4; 1 # 8]] ]}.

(** An extractor result that reports a face but carries no descriptor. *)
Definition no_descriptor : dict :=
  {[ "status" := VInt 0; "face_detections" := VArray [[0 # 1; 0 # 1; 1 # 2; 1 # 2]];
     "face_feats" := VArray [] ]}.

(** The calls of [recognize_face]: the inference and the search. *)
Definition recognize_call (c : Call) : bool :=
  match c with
  | RunInference _ _ _ | MilvusSearch _ => true
  | _ => false
  end.

(** ** routes/recognize_person.py *)

(** The two endpoints run a recognition function [func] on an image that
    they first store under a fresh name.  Their helpers ([uuid],
    [get_mode_ext], [cache_file_locally], [download_url_file],
    [InputModel], [ModelType], the background tasks) are not part of the
    three files: what they answer is given by a [RouteEnv], and each of
    them that touches the outside may raise. *)
Inductive RouteCall :=
| FileRead
| CacheFileLocally (path : string)
| AddRemoveTask (path : string)
| MakeDirs (path : string)
| DownloadUrlFile (url path : string)
| NewInputModel (model_name file_path : string)
| Service (c : Call).

Abbreviation RouteEvent := (RouteCall * option exn)%type.

Record RouteEnv := {
  ROOT_DOWNLOAD_PATH : string;
  uuid4 : string;                        (* [str(uuid.uuid4())] *)
  image_ext : string;                    (* [get_mode_ext("image")] *)
  os_path_join : string → string → string;
  slow_model : string;                   (* [ModelType.SLOW.value] *)
  input_threshold : Q;                   (* the threshold of an [InputModel] built without one *)
  read_fault : option exn;
  cache_fault : option exn;
  makedirs_fault : option exn;
  download_fault : option exn;
  input_fault : option exn
}.

(** The stores and the paths whose removal is scheduled as a background
    task.  What [cache_file_locally] and [download_url_file] leave on the
    disk is not part of the three files and is not modelled. *)
Record RouteState := {
  stores : World;
  tasks : list string
}.

Record InputModel := {
  input_model_name : string;
  input_file_path : string;
  input_model_threshold : Q
}.

Definition R (A : Type) : Type := RouteState → outcome A * RouteState * list RouteEvent.

#[global] Instance R_ret : MRet R := λ A a s, (Return a, s, []).

#[global] Instance R_bind : MBind R := λ A B f m s,
  match m s with
  | (Return a, s', evs) =>
      let '(r, s'', evs') := f a s' in (r, s'', evs ++ evs')
  | (Raise e, s', evs) => (Raise e, s', evs)
  end.

(** [try: body except Exception as excep: handler excep] *)
Definition try_except_Exception {A} (body : R A) (handler : exn → R A) : R A :=
  λ s,
  match body s with
  | (Return a, s', evs) => (Return a, s', evs)
  | (Raise e, s', evs) =>
      let '(r, s'', evs') := handler e s' in (r, s'', evs ++ evs')
  end.

Definition route_call {A} (c : RouteCall) (fault : option exn)
    (act : RouteState → A * RouteState) : R A :=
  λ s,
  match fault with
  | Some e => (Raise e, s, [(c, Some e)])
  | None => let '(a, s') := act s in (Return a, s', [(c, None)])
  end.

(** A computation on the stores, run from a route. *)
Definition on_stores {A} (m : M A) : R A :=
  λ s,
  let '(r, w', evs) := m (stores s) in
  (r, {| stores := w'; tasks := tasks s |},
   (λ ev : Event, (Service ev.1, ev.2)) <$> evs).

Section Routes.

Variable renv : RouteEnv.

(** The recognition function given to [RecognizePersonProcessTask]: it is
    called with [model_name], [file_path] and [threshold]. *)
Variable func : string → string → Q → M dict.

(** [img_file.file.read()] *)
Definition file_read : R unit :=
  route_call FileRead (read_fault renv) (λ s, (tt, s)).

(** [await cache_file_locally(file_cache_path, file_bytes_content)] *)
Definition cache_file_locally (path : string) : R unit :=
  route_call (CacheFileLocally path) (cache_fault renv) (λ s, (tt, s)).

(** [background_tasks.add_task(remove_file, file_cache_path)] *)
Definition add_remove_task (path : string) : R unit :=
  route_call (AddRemoveTask path) None
    (λ s, (tt, {| stores := stores s; tasks := tasks s ++ [path] |})).

(** [os.makedirs(ROOT_DOWNLOAD_PATH, exist_ok=True)] *)
Definition makedirs (path : string) : R unit :=
  route_call (MakeDirs path) (makedirs_fault renv) (λ s, (tt, s)).

(** [download_url_file(img_url, file_cache_path)] *)
Definition download_url_file (url path : string) : R unit :=
  route_call (DownloadUrlFile url path) (download_fault renv) (λ s, (tt, s)).

(** [InputModel(model_name=model_type.value, file_path=file_cache_path)] *)
Definition new_input_model (model_name file_path : string) : R InputModel :=
  route_call (NewInputModel model_name file_path) (input_fault renv)
    (λ s, ({| input_model_name := model_name; input_file_path := file_path;
              input_model_threshold := input_threshold renv |}, s)).

(** [RecognizePersonProcessTask(func, input_data).run()], giving
    [task.response_data], the copy [{**results}] of what [func] returned. *)
Definition RecognizePersonProcessTask_run (input_data : InputModel) : R dict :=
  results ← on_stores (func (input_model_name input_data) (input_file_path input_data)
                            (input_model_threshold input_data));
  mret results.

Definition recognize_person_file : R dict :=
  let response_data : dict := ∅ in
  try_except_Exception
    (let file_name := uuid4 renv +:+ image_ext renv in
     _ ← file_read;
     let file_cache_path := os_path_join renv (ROOT_DOWNLOAD_PATH renv) file_name in
     _ ← cache_file_locally file_cache_path;
     _ ← add_remove_task file_cache_path;
     input_data ← new_input_model (slow_model renv) file_cache_path;
     response_data ← RecognizePersonProcessTask_run input_data;
     mret response_data)
    (λ excep,
       let response_data := <[ "status" := VStr "failed" ]> response_data in
       let response_data :=
         <[ "message" := VStr "failed to recognize face from image" ]> response_data in
       mret response_data).

Definition recognize_person_url (img_url : string) : R dict :=
  let response_data : dict := ∅ in
  downloaded ← try_except_Exception
    (_ ← makedirs (ROOT_DOWNLOAD_PATH renv);
     let file_name := uuid4 renv +:+ image_ext renv in
     let file_cache_path := os_path_join renv (ROOT_DOWNLOAD_PATH renv) file_name in
     _ ← download_url_file img_url file_cache_path;
     _ ← add_remove_task file_cache_path;
     mret (inl file_cache_path))
    (λ excep,
       let response_data := <[ "status" := VStr "failed" ]> response_data in
       let response_data :=
         <[ "message" := VStr ("couldn't download image from '" +:+ img_url +:+
                               "'. Not a valid link.") ]> response_data in
       mret (inr response_data));
  match downloaded with
  | inr response_data => mret response_data
  | inl file_cache_path =>
  try_except_Exception
    (input_data ← new_input_model (slow_model renv) file_cache_path;
     response_data ← RecognizePersonProcessTask_run input_data;
     mret response_data)
    (λ excep,
       let response_data := <[ "status" := VStr "failed" ]> response_data in
       let response_data :=
         <[ "message" := VStr ("failed to recognize face  from image downloaded from "
                               +:+ img_url) ]> response_data in
       mret response_data)
  end.

End Routes.

(** The path under which an endpoint stores the image. *)
Definition file_cache_path (renv : RouteEnv) : string :=
  os_path_join renv (ROOT_DOWNLOAD_PATH renv) (uuid4 renv +:+ image_ext renv).

Definition route_no_faults : RouteEnv :=
  {| ROOT_DOWNLOAD_PATH := ".data_cache"; uuid4 := "1b4e28ba"; image_ext := ".jpg";
     os_path_join := λ a b, a +:+ "/" +:+ b; slow_model := "face_slow";
     input_threshold := 1 # 2;
     read_fault := None; cache_fault := None; makedirs_fault := None;
     download_fault := None; input_fault := None |}.

Definition with_download_fault (fault : option exn) (renv : RouteEnv) : RouteEnv :=
  {| ROOT_DOWNLOAD_PATH := ROOT_DOWNLOAD_PATH renv; uuid4 := uuid4 renv;
     image_ext := image_ext renv; os_path_join := os_path_join renv;
     slow_model := slow_model renv; input_threshold := input_threshold renv;
     read_fault := read_fault renv; cache_fault := cache_fault renv;
     makedirs_fault := makedirs_fault renv; download_fault := fault;
     input_fault := input_fault renv |}.

Definition route_start (w : World) : RouteState :=
  {| stores := w; tasks := [] |}.

Definition route_result {A} (r : outcome A * RouteState * list RouteEvent) : outcome A :=
  r.1.1.
Definition route_state {A} (r : outcome A * RouteState * list RouteEvent) : RouteState :=
  r.1.2.
Definition route_events {A} (r : outcome A * RouteState * list RouteEvent)
    : list RouteEvent := r.2.

(** The events of [func] are the only service calls of a route. *)
Definition is_service (c : RouteCall) : bool :=
  match c with Service _ => true | _ => false end.

(** ** api/milvus.py: [get_milvus_connec] *)

Module MilvusSetup.

Inductive DataType := INT64 | FLOAT_VECTOR.

(** [FieldSchema(name=, dtype=, descrition=, is_primary=, auto_id=, dim=)],
    with the keyword arguments as the code spells them. *)
Record FieldSchema := {
  name : string;
  dtype : DataType;
  descrition : string;
  is_primary : bool;
  auto_id : bool;
  dim : option Z
}.

Record CollectionSchema := { fields : list FieldSchema; description : string }.

Record IndexParams := { metric_type : string; index_type : string; nlist : Z }.

(** A collection on the server: its schema, its index (the indexed field
    and the parameters) and its entities. *)
Record Collection := {
  schema : CollectionSchema;
  consistency_level : string;
  index : option (string * IndexParams);
  entities : list Row
}.

Abbreviation Server := (gmap string Collection).

Inductive SetupCall :=
| Connect (alias host : string) (port : Z)
| HasCollection (collection_name : string)
| CreateCollection (collection_name : string)
| CreateIndex (collection_name field_name : string)
| OpenCollection (collection_name : string).

(** [get_milvus_connec(collection_name, milvus_host, milvus_port,
    vector_dim, metric_type, index_type)] on a server: the handle it
    returns (the collection, by its name), the server afterwards and the
    calls made. *)
Definition get_milvus_connec (collection_name milvus_host : string)
    (milvus_port vector_dim : Z) (metric_type index_type : string) (server : Server)
    : string * Server * list SetupCall :=
  let connect := Connect "default" milvus_host milvus_port in
  match server !! collection_name with
  | None =>
      let fields :=
        [ {| name := "id"; dtype := INT64; descrition := "ids";
             is_primary := true; auto_id := true; dim := None |};
          {| name := "embedding"; dtype := FLOAT_VECTOR; descrition := "embedding vectors";
             is_primary := false; auto_id := false; dim := Some vector_dim |};
          {| name := "person_id"; dtype := INT64; descrition := "persons unique id";
             is_primary := false; auto_id := false; dim := None |} ] in
      let schema := {| fields := fields; description := "face recognition system" |} in
      let index_params :=
        {| metric_type := metric_type; index_type := index_type; nlist := 4096 |} in
      let milvus_conn :=
        {| schema := schema; consistency_level := "Strong";
           index := Some ("embedding", index_params); entities := [] |} in
      (collection_name, <[ collection_name := milvus_conn ]> server,
       [connect; HasCollection collection_name; CreateCollection collection_name;
        CreateIndex collection_name "embedding"])
  | Some _ =>
      (collection_name, server,
       [connect; HasCollection collection_name; OpenCollection collection_name])
  end.

(** The calls that change a server. *)
Definition creates (c : SetupCall) : bool :=
  match c with
  | CreateCollection _ | CreateIndex _ _ => true
  | _ => false
  end.

End MilvusSetup.

(** ** Symbolic execution of the operations *)

Ltac red_in H :=
  cbv beta iota zeta delta
    [register_face recognize_face inference get_registered_face
     get_registered_person unregister_face
     collection_query collection_insert collection_flush collection_delete
     collection_search mysql_cursor cursor_execute mysql_commit cursor_close
     redis_hset redis_expire first_row index0 py_lt0 getitem try_except
     try_finally except_MilvusException except_pymysql_Error call raise
     mbind M_bind mret M_ret fmap option_fmap option_map] in H;
  cbn [collection mysql_pending mysql_table redis] in H.

(* The scrutinee on which the evaluation of [x] is blocked. *)
Ltac inner x :=
  lazymatch x with
  | context [match ?y with _ => _ end] => inner y
  | _ => x
  end.

Lemma py_eq_failed_success : py_eq (VStr "failed") (VStr "success") = false.
Proof. reflexivity. Qed.

Lemma py_eq_success_success : py_eq (VStr "success") (VStr "success") = true.
Proof. reflexivity. Qed.

Ltac step_in H :=
  lazymatch type of H with
  | context [match ?x with _ => _ end] =>
      let y := inner x in
      first
        [ rewrite (lookup_insert_eq (M:=gmap string)) in H
        | rewrite (lookup_singleton_eq (M:=gmap string)) in H
        | rewrite py_eq_failed_success in H
        | rewrite py_eq_success_success in H
        | destruct y eqn:? ];
      red_in H
  end.

(* Runs the operation in [H : op ... w = (r, w', evs)] along every path. *)
Ltac exec_in H :=
  red_in H; repeat step_in H; cbn [app] in H; injection H as <- <- <-.

(* Decomposes [H : ev ∈ [ev1; ...; evn]]. *)
Ltac elem_inv H :=
  repeat (apply elem_of_cons in H; destruct H as [H|H];
          [ first [ discriminate H | idtac ] | ]);
  first [ apply elem_of_nil in H; contradiction | idtac ].

(** ** Dictionaries returned by the code *)

Lemma lookup_status (status message : pyval) :
  ({[ "status" := status; "message" := message ]} : dict) !! "status" = Some status.
Proof. apply lookup_insert_eq. Qed.

Lemma lookup_message (status message : pyval) :
  ({[ "status" := status; "message" := message ]} : dict) !! "message" = Some message.
Proof. rewrite lookup_insert_ne by done. apply lookup_singleton_eq. Qed.

Lemma outcome_dict_inj (s1 m1 s2 m2 : pyval) :
  ({[ "status" := s1; "message" := m1 ]} : dict) = {[ "status" := s2; "message" := m2 ]} →
  s1 = s2 ∧ m1 = m2.
Proof.
  intros H. split.
  - apply (f_equal (λ d : dict, d !! "status")) in H.
    rewrite !lookup_status in H. congruence.
  - apply (f_equal (λ d : dict, d !! "message")) in H.
    rewrite !lookup_message in H. congruence.
Qed.

Lemma failed_well_formed message : well_formed (failed message).
Proof.
  unfold failed. split; [right; apply lookup_status | rewrite lookup_message; eauto].
Qed.

Lemma success_well_formed message : well_formed (success message).
Proof.
  unfold success. split; [left; apply lookup_status | rewrite lookup_message; eauto].
Qed.

Lemma match_outcome_well_formed person_id : well_formed (match_outcome person_id).
Proof.
  unfold match_outcome. split.
  - left. apply lookup_insert_eq.
  - rewrite lookup_insert_ne by done. rewrite lookup_insert_eq. eauto.
Qed.

(** ** Which results the operations give *)

Lemma query_rows_head (l : list Row) (d : dict) (rest : list dict) :
  take 10 ((λ r, {[ "person_id" := row_person_id r ]}) <$> l) = d :: rest →
  ∃ r, r ∈ l ∧ d = {[ "person_id" := row_person_id r ]}.
Proof.
  destruct l as [|r l]; [discriminate|].
  cbn. intros [= <- _]. exists r. split; [left | reflexivity].
Qed.

Lemma unregister_face_returns env person_id w :
  returns_outcome (result_of (unregister_face env person_id w)).
Proof.
  destruct (unregister_face _ _ _) as [[r w'] evs] eqn:Hrun.
  unfold result_of; cbn [fst snd].
  exec_in Hrun.
  - eexists. split; [reflexivity | apply failed_well_formed].
  - eexists. split; [reflexivity | apply success_well_formed].
Qed.

Lemma get_registered_face_returns env person_id w :
  returns_outcome (result_of (get_registered_face env person_id w)).
Proof.
  destruct (get_registered_face _ _ _) as [[r w'] evs] eqn:Hrun.
  unfold result_of; cbn [fst snd].
  exec_in Hrun.
  - eexists. split; [reflexivity |].
    split; [right; apply lookup_status | rewrite lookup_message; eauto].
  - eexists. split; [reflexivity | apply failed_well_formed].
  - eexists. split; [reflexivity | apply success_well_formed].
  - match goal with H : take _ _ = _ |- _ =>
      apply query_rows_head in H as (row & _ & ->) end.
    rewrite lookup_singleton_eq in *. discriminate.
Qed.

Ltac solve_returned :=
  first
    [ intros H; discriminate H
    | intros [= <-];
      lazymatch goal with
      | |- _ ∨ <[ "status" := _ ]> ?p = extraction_error_outcome ?p =>
          right; reflexivity
      | |- well_formed {[ "status" := VStr "failed"; "message" := VStr _ ]} ∨ _ =>
          left; apply failed_well_formed
      | |- well_formed {[ "status" := VStr "success"; "message" := VStr _ ]} ∨ _ =>
          left; apply success_well_formed
      | |- well_formed {[ "status" := _; "message" := _; "match_id" := _ ]} ∨ _ =>
          left; apply match_outcome_well_formed
      end ].

Lemma register_face_returned env model_name file_path threshold person_data w d :
  result_of (register_face env model_name file_path threshold person_data w) = Return d →
  well_formed d
  ∨ d = extraction_error_outcome (run_inference env file_path model_name threshold).
Proof.
  destruct (register_face _ _ _ _ _ _) as [[r w'] evs] eqn:Hrun.
  unfold result_of; cbn [fst snd].
  exec_in Hrun.
  all: solve_returned.
Qed.

Lemma recognize_face_returned env model_name file_path threshold face_dist_threshold w d :
  result_of (recognize_face env model_name file_path threshold face_dist_threshold w)
    = Return d →
  well_formed d
  ∨ d = extraction_error_outcome (run_inference env file_path model_name threshold).
Proof.
  destruct (recognize_face _ _ _ _ _ _) as [[r w'] evs] eqn:Hrun.
  unfold result_of; cbn [fst snd].
  exec_in Hrun.
  all: solve_returned.
Qed.

Lemma register_face_unguarded_fault env model_name file_path threshold person_data w e :
  let run := register_face env model_name file_path threshold person_data w in
  (MilvusFlush, Some e) ∈ events_of run ∨ cache_put_failed (events_of run) e →
  result_of run = Raise e.
Proof.
  intros run. subst run.
  destruct (register_face _ _ _ _ _ _) as [[r w'] evs] eqn:Hrun.
  unfold result_of, events_of, cache_put_failed; cbn [fst snd].
  exec_in Hrun.
  all: intros [H | [(key & mapping & H) | (key & ttl & H)]]; elem_inv H.
  all: congruence.
Qed.

Lemma recognize_face_search_fault env model_name file_path threshold face_dist_threshold
    w data e :
  let run := recognize_face env model_name file_path threshold face_dist_threshold w in
  (MilvusSearch data, Some e) ∈ events_of run →
  result_of run = Raise e.
Proof.
  intros run. subst run.
  destruct (recognize_face _ _ _ _ _ _) as [[r w'] evs] eqn:Hrun.
  unfold result_of, events_of; cbn [fst snd].
  exec_in Hrun.
  all: intros H; elem_inv H.
  all: congruence.
Qed.
(** ** Registration: compensation *)

(** C1.  In every call of [register_face] in which the vector insert
    succeeded and the metadata insert ([cursor.execute] or
    [mysql_conn.commit]) raised, the code calls [collection.delete] for the
    same [person_id] and returns the failed dictionary with the message
    ["mysql insertion error"], whether the delete raised or not; when the
    delete did not raise, no entity with that [person_id] is left in the
    collection. *)
Theorem register_face_compensates env model_name file_path threshold person_data w
    face_vector person_id e :
  let run := register_face env model_name file_path threshold person_data w in
  (MilvusInsert face_vector person_id, None) ∈ events_of run →
  metadata_insert_failed (events_of run) e →
  result_of run = Return (failed "mysql insertion error")
  ∧ (∃ raised, (MilvusDelete person_id, raised) ∈ events_of run)
  ∧ ((MilvusDelete person_id, None) ∈ events_of run →
     ∀ row, row ∈ collection (world_of run) → row_person_id row ≠ person_id).
Proof.
  intros run. subst run.
  destruct (register_face _ _ _ _ _ _) as [[r w'] evs] eqn:Hrun.
  unfold result_of, events_of, world_of, metadata_insert_failed; cbn [fst snd].
  exec_in Hrun.
  all: intros Hins [[values Hx]|Hx]; elem_inv Hins; elem_inv Hx.
  all: injection Hins as -> ->.
  all: split; [reflexivity | split; [eexists; repeat constructor |]].
  all: intros Hdel; elem_inv Hdel.
  all: cbn [collection]; intros row [Hrow _]%list_elem_of_filter; exact Hrow.
Qed.

Lemma register_face_compensates_witness :
  result_of (register_face
               (with_delete_fault (Some "connection lost")
                  (with_execute_fault (Some "server has gone away")
                     (no_faults one_face [])))
               "m1" "img.jpg" (1 # 2) alice empty_world)
  = Return (failed "mysql insertion error").
Proof.
  apply (register_face_compensates _ "m1" "img.jpg" (1 # 2) alice empty_world
           [1 # 2; 1 # 4] (VInt 1) (PymysqlError "server has gone away")).
  - vm_compute. repeat constructor.
  - left. eexists. vm_compute. repeat constructor.
Defined.
(** ** Registration: flush and cache *)

(** C5.  A failure of the flush after the vector insert, or of the cache
    put after the metadata insert, is not absorbed by [register_face]: the
    exception is raised to the caller in place of an Outcome.  After a
    failed flush nothing more is called (no metadata insert, no delete of
    the vector); a cache put is reached only after the commit. *)
Theorem register_face_best_effort_failure_raises env model_name file_path threshold
    person_data w e :
  let run := register_face env model_name file_path threshold person_data w in
  ((MilvusFlush, Some e) ∈ events_of run →
   result_of run = Raise e ∧ last (events_of run) = Some (MilvusFlush, Some e))
  ∧ (cache_put_failed (events_of run) e →
     result_of run = Raise e ∧ (MysqlCommit, None) ∈ events_of run).
Proof.
  intros run. subst run.
  destruct (register_face _ _ _ _ _ _) as [[r w'] evs] eqn:Hrun.
  unfold result_of, events_of, cache_put_failed; cbn [fst snd].
  exec_in Hrun.
  all: split;
    [ intros H | intros [(key & mapping & H) | (key & ttl & H)] ]; elem_inv H.
  all: split; [congruence |].
  all: first [ cbn [last]; congruence | repeat constructor ].
Qed.

Lemma register_face_best_effort_failure_raises_witness :
  result_of (register_face (with_flush_fault (Some "timeout") (no_faults one_face []))
               "m1" "img.jpg" (1 # 2) alice empty_world)
  = Raise (MilvusException "timeout").
Proof.
  apply (proj1 (register_face_best_effort_failure_raises
                  (with_flush_fault (Some "timeout") (no_faults one_face []))
                  "m1" "img.jpg" (1 # 2) alice empty_world (MilvusException "timeout"))).
  vm_compute. repeat constructor.
Defined.

(** The claim of C5 fails: with the same inputs and the same answers of
    the other services, a failing flush or a failing cache put changes what
    the caller gets. *)
Lemma register_face_best_effort_failure_changes_result :
  result_of (register_face
               (with_flush_fault (Some "timeout")
                  (with_execute_fault (Some "server has gone away") (no_faults one_face [])))
               "m1" "img.jpg" (1 # 2) alice empty_world)
  ≠ result_of (register_face
                 (with_flush_fault None
                    (with_execute_fault (Some "server has gone away") (no_faults one_face [])))
                 "m1" "img.jpg" (1 # 2) alice empty_world)
  ∧ result_of (register_face (with_hset_fault (Some "connection refused")
                                (no_faults one_face []))
                 "m1" "img.jpg" (1 # 2) alice_named empty_world)
    ≠ result_of (register_face (with_hset_fault None (no_faults one_face []))
                   "m1" "img.jpg" (1 # 2) alice_named empty_world).
Proof.
  split; vm_compute; intros H; discriminate H.
Qed.
(** ** Registration: the duplicate check *)

Lemma query_rows_nil (person_id : pyval) (l : list Row) :
  take 10 ((λ r, {[ "person_id" := row_person_id r ]} : dict) <$>
           filter (λ r, row_person_id r = person_id) l) = [] →
  ∀ row, row ∈ l → row_person_id row ≠ person_id.
Proof.
  intros Hnil row Hin Hrow.
  destruct (filter _ l) as [|r rest] eqn:Hfilter; [|discriminate Hnil].
  eapply (filter_nil_not_elem_of _ _ row); eauto.
Qed.

(** A call that reports success was given the key ["person_name"] and has
    appended an entity for the identity to the collection. *)
Lemma register_face_success_stored env model_name file_path threshold person_data w d :
  let run := register_face env model_name file_path threshold person_data w in
  result_of run = Return d →
  d !! "status" = Some (VStr "success") →
  ∃ face_vector person_id,
    person_data !! "id" = Some person_id
    ∧ is_Some (person_data !! "person_name")
    ∧ collection (world_of run)
      = collection w ++ [ {| row_embedding := face_vector; row_person_id := person_id |} ].
Proof.
  intros run. subst run.
  destruct (register_face _ _ _ _ _ _) as [[r w'] evs] eqn:Hrun.
  unfold result_of, world_of; cbn [fst snd].
  exec_in Hrun.
  all: intros Hres Hst; try discriminate Hres; injection Hres as <-.
  all: rewrite lookup_insert_eq in Hst; try discriminate Hst.
  all: cbn [collection]; eexists _, _; split; [reflexivity | split; [| reflexivity]].
  all: match goal with
       | H : <[ "birthdate" := _ ]> _ !! "person_name" = Some _ |- _ =>
           rewrite lookup_insert_ne in H by done; rewrite H; eauto
       end.
Qed.

(** When the collection holds an entity for the identity and the lookup
    answers, the call ends right after the lookup. *)
Lemma register_face_registered env model_name file_path threshold person_data w person_id :
  let run := register_face env model_name file_path threshold person_data w in
  (∃ row, row ∈ collection w ∧ row_person_id row = person_id) →
  (MilvusQuery person_id, None) ∈ events_of run →
  result_of run = Return (duplicate_outcome person_id)
  ∧ events_of run = [(RunInference file_path model_name threshold, None);
                     (MilvusQuery person_id, None)]
  ∧ world_of run = w.
Proof.
  intros run (row & Hin & Hrow). subst run.
  destruct (register_face _ _ _ _ _ _) as [[r w'] evs] eqn:Hrun.
  unfold result_of, events_of, world_of; cbn [fst snd].
  exec_in Hrun.
  all: intros Hq; elem_inv Hq.
  all: injection Hq as <-.
  all: try (match goal with H : take _ _ = [] |- _ =>
              exfalso; exact (query_rows_nil _ _ H row Hin Hrow) end).
  all: try (match goal with H : take _ _ = _ :: _ |- _ =>
              apply query_rows_head in H as (row' & _ & ->) end;
            rewrite lookup_singleton_eq in *; discriminate).
  all: repeat split.
Qed.

(** C6.  Two calls of [register_face] for the same identity: when the
    first one returned status ["success"], and the second one gets as far
    as its lookup by identity and the lookup answers, the second one
    returns the failed dictionary saying that the person already exists.
    It has called the inference and [collection.query] only (an exact
    match on [person_id], no search, no insert) and leaves the stores as
    the first call left them. *)
Theorem register_face_twice env1 env2 model1 file1 threshold1 model2 file2 threshold2
    person_data1 person_data2 w person_id d :
  let run1 := register_face env1 model1 file1 threshold1 person_data1 w in
  let run2 := register_face env2 model2 file2 threshold2 person_data2 (world_of run1) in
  person_data1 !! "id" = Some person_id →
  result_of run1 = Return d →
  d !! "status" = Some (VStr "success") →
  (MilvusQuery person_id, None) ∈ events_of run2 →
  result_of run2 = Return (duplicate_outcome person_id)
  ∧ events_of run2 = [(RunInference file2 model2 threshold2, None);
                      (MilvusQuery person_id, None)]
  ∧ world_of run2 = world_of run1.
Proof.
  intros run1 run2 Hid Hres Hst Hq.
  destruct (register_face_success_stored _ _ _ _ _ _ _ Hres Hst)
    as (fv & pid & Hid' & _ & Hcoll).
  assert (pid = person_id) as -> by congruence.
  apply register_face_registered; [|exact Hq].
  exists {| row_embedding := fv; row_person_id := person_id |}.
  split; [|reflexivity].
  fold run1 in Hcoll. rewrite Hcoll. apply elem_of_app. right. left.
Qed.

Lemma register_face_twice_witness :
  result_of (register_face (no_faults one_face []) "m1" "img.jpg" (1 # 2) alice_named
               after_alice)
  = Return (duplicate_outcome (VInt 1)).
Proof.
  apply (register_face_twice (no_faults one_face []) (no_faults one_face [])
           "m1" "img.jpg" (1 # 2) "m1" "img.jpg" (1 # 2) alice_named alice_named
           empty_world (VInt 1) (success "Person Alice successfully registered")).
  - vm_compute. reflexivity.
  - vm_compute. reflexivity.
  - apply lookup_status.
  - vm_compute. repeat constructor.
Defined.

(** The claim of C6 fails for a second call that does not get an answer
    from the lookup: with an image without a face the second call is
    rejected for that reason, and with a failing lookup it registers the
    identity a second time. *)
Lemma register_face_twice_not_duplicate :
  result_of (register_face (no_faults one_face []) "m1" "img.jpg" (1 # 2) alice_named
               empty_world)
  = Return (success "Person Alice successfully registered")
  ∧ result_of (register_face (no_faults no_face []) "m1" "wall.jpg" (1 # 2) alice_named
                 after_alice)
    = Return no_face_outcome
  ∧ no_face_outcome ≠ duplicate_outcome (VInt 1)
  ∧ result_of (register_face (with_query_fault (Some "timeout") (no_faults one_face []))
                 "m1" "img.jpg" (1 # 2) alice_named after_alice)
    = Return (success "Person Alice successfully registered")
  ∧ success "Person Alice successfully registered" ≠ duplicate_outcome (VInt 1).
Proof.
  split; [vm_compute; reflexivity |].
  split; [vm_compute; reflexivity |].
  split; [intros [_ H]%outcome_dict_inj; discriminate H |].
  split; [vm_compute; reflexivity |].
  intros [H _]%outcome_dict_inj; discriminate H.
Qed.

(** C2.  [unregister_face] and [get_registered_face] return one
    well-formed Outcome on every input.  Every dictionary that
    [register_face] or [recognize_face] returns is a well-formed Outcome or
    the dictionary of the extractor with status ["failed"].  The exception
    of a failed flush, cache put or search is not turned into an Outcome:
    it is raised to the caller. *)
Theorem orchestrator_outcomes :
  (∀ env person_id w, returns_outcome (result_of (unregister_face env person_id w)))
  ∧ (∀ env person_id w, returns_outcome (result_of (get_registered_face env person_id w)))
  ∧ (∀ env model_name file_path threshold person_data w d,
       result_of (register_face env model_name file_path threshold person_data w)
         = Return d →
       well_formed d
       ∨ d = extraction_error_outcome (run_inference env file_path model_name threshold))
  ∧ (∀ env model_name file_path threshold face_dist_threshold w d,
       result_of (recognize_face env model_name file_path threshold face_dist_threshold w)
         = Return d →
       well_formed d
       ∨ d = extraction_error_outcome (run_inference env file_path model_name threshold))
  ∧ (∀ env model_name file_path threshold person_data w e,
       let run := register_face env model_name file_path threshold person_data w in
       (MilvusFlush, Some e) ∈ events_of run ∨ cache_put_failed (events_of run) e →
       result_of run = Raise e)
  ∧ (∀ env model_name file_path threshold face_dist_threshold w data e,
       let run := recognize_face env model_name file_path threshold face_dist_threshold w in
       (MilvusSearch data, Some e) ∈ events_of run →
       result_of run = Raise e).
Proof.
  split; [exact unregister_face_returns |].
  split; [exact get_registered_face_returns |].
  split; [exact register_face_returned |].
  split; [exact recognize_face_returned |].
  split; [exact register_face_unguarded_fault | exact recognize_face_search_fault].
Qed.

Lemma orchestrator_outcomes_witness :
  result_of (recognize_face (with_search_fault (Some "timeout") (no_faults one_face []))
               "m1" "img.jpg" (1 # 2) (1 # 10) alice_stored)
  = Raise (MilvusException "timeout").
Proof.
  apply (proj2 (proj2 (proj2 (proj2 (proj2 orchestrator_outcomes))))
           (with_search_fault (Some "timeout") (no_faults one_face []))
           "m1" "img.jpg" (1 # 2) (1 # 10) alice_stored (VArray [[1 # 2; 1 # 4]])).
  vm_compute. repeat constructor.
Defined.

(** The claim of C2 fails on a failed flush: [register_face] gives no
    Outcome, the exception of [collection.flush] reaches the caller. *)
Lemma register_face_flush_fault_escapes :
  result_of (register_face (with_flush_fault (Some "timeout") (no_faults one_face []))
               "m1" "img.jpg" (1 # 2) alice empty_world)
  = Raise (MilvusException "timeout")
  ∧ ¬ returns_outcome
        (result_of (register_face (with_flush_fault (Some "timeout") (no_faults one_face []))
                      "m1" "img.jpg" (1 # 2) alice empty_world)).
Proof.
  assert (H : result_of (register_face
                           (with_flush_fault (Some "timeout") (no_faults one_face []))
                           "m1" "img.jpg" (1 # 2) alice empty_world)
              = Raise (MilvusException "timeout")) by (vm_compute; reflexivity).
  split; [exact H |].
  intros (d & Hd & _). rewrite H in Hd. discriminate Hd.
Qed.

(** Two more paths on which the caller gets no Outcome.  The last line of
    [register_face] reads [person_data['person_name']], a key that is not
    among the columns stored before it ([person_data['name']] is): with the
    documented keys the call raises [KeyError] after the vector, the row
    and the cache entry have been written. *)
Lemma register_face_success_path_raises :
  result_of (register_face (no_faults one_face []) "m1" "img.jpg" (1 # 2) alice empty_world)
  = Raise (KeyError "person_name")
  ∧ collection (world_of (register_face (no_faults one_face []) "m1" "img.jpg" (1 # 2)
                            alice empty_world))
    = [alice_row]
  ∧ (MysqlCommit, None)
    ∈ events_of (register_face (no_faults one_face []) "m1" "img.jpg" (1 # 2)
                   alice empty_world).
Proof.
  split; [vm_compute; reflexivity | split; [vm_compute; reflexivity |]].
  vm_compute. repeat constructor.
Qed.

(** [register_face] reports success only for a [person_data] that has the
    key ["person_name"]. *)
Lemma register_face_success_needs_person_name env model_name file_path threshold
    person_data w d :
  person_data !! "person_name" = None →
  result_of (register_face env model_name file_path threshold person_data w) = Return d →
  d !! "status" ≠ Some (VStr "success").
Proof.
  intros Hnone Hres Hst.
  destruct (register_face_success_stored _ _ _ _ _ _ _ Hres Hst)
    as (_ & _ & _ & [name Hname] & _).
  congruence.
Qed.

(** [get_registered_person] has no [return] for the case that an entity
    is found: it returns [None] there. *)
Lemma get_registered_person_found env person_id w row :
  query_fault env = None →
  row ∈ collection w → row_person_id row = person_id →
  result_of (get_registered_person env person_id w) = Return None.
Proof.
  intros Hfault Hin Hrow.
  destruct (get_registered_person _ _ _) as [[r w'] evs] eqn:Hrun.
  unfold result_of; cbn [fst snd].
  red_in Hrun. rewrite Hfault in Hrun. exec_in Hrun; [| reflexivity].
  match goal with H : take _ _ = [] |- _ =>
    exfalso; exact (query_rows_nil _ _ H row Hin Hrow) end.
Qed.
(** ** Registration: rejections *)

(** C7.  A call of [register_face] that ends with a rejection (no face
    detected, negative extractor status, identity already registered)
    leaves the collection, the MySQL table and Redis as they were, and has
    called nothing but the inference and the lookup by identity: no
    insert, no delete. *)
Theorem register_face_rejection_frame env model_name file_path threshold person_data w :
  let run := register_face env model_name file_path threshold person_data w in
  rejection (run_inference env file_path model_name threshold) (result_of run) →
  world_of run = w
  ∧ Forall (λ ev : Event, reads_only ev.1 = true) (events_of run).
Proof.
  intros run. subst run.
  destruct (register_face _ _ _ _ _ _) as [[r w'] evs] eqn:Hrun.
  unfold result_of, events_of, world_of; cbn [fst snd].
  exec_in Hrun.
  all: try (intros _; split; [reflexivity | repeat constructor]; fail).
  all: intros [H | [[pid H] | (z' & Hz & Hneg & H)]]; try discriminate H.
  all: try (rewrite Hz in *; simplify_eq; lia).
  all: injection H as H; apply outcome_dict_inj in H as [Hs Hm]; try discriminate Hs.
  all: try discriminate Hm.
  all: cbn [String.append] in Hm; discriminate Hm.
Qed.

Lemma register_face_rejection_frame_witness :
  world_of (register_face (no_faults one_face []) "m1" "img.jpg" (1 # 2) alice alice_stored)
  = alice_stored.
Proof.
  apply (register_face_rejection_frame (no_faults one_face []) "m1" "img.jpg" (1 # 2)
           alice alice_stored).
  right. left. exists (VInt 1). vm_compute. reflexivity.
Defined.
(** ** Registration: a failing lookup *)

(** C10.  When the lookup by identity of [register_face] raises
    [MilvusException], [get_registered_face] answers a dictionary with
    status ["failed"] that carries the exception, [register_face] does not
    reject the call as a duplicate, and, the extractor having delivered a
    descriptor, it goes on to [collection.insert] for that identity,
    whatever the collection holds. *)
Theorem register_face_lookup_failure_bypasses env model_name file_path threshold
    person_data w person_id e :
  let run := register_face env model_name file_path threshold person_data w in
  (MilvusQuery person_id, Some e) ∈ events_of run →
  result_of (get_registered_face env person_id w)
    = Return {[ "status" := VStr "failed"; "message" := VExn e ]}
  ∧ result_of run ≠ Return (duplicate_outcome person_id)
  ∧ (∀ face_vector rest,
       run_inference env file_path model_name threshold !! "face_feats"
         = Some (VArray (face_vector :: rest)) →
       ∃ raised, (MilvusInsert face_vector person_id, raised) ∈ events_of run).
Proof.
  intros run. subst run.
  destruct (register_face _ _ _ _ _ _) as [[r w'] evs] eqn:Hrun.
  destruct (get_registered_face _ _ _) as [[r0 w0] evs0] eqn:Hget.
  unfold result_of, events_of, world_of; cbn [fst snd].
  exec_in Hrun.
  all: intros Hq; elem_inv Hq.
  all: injection Hq as -> ->.
  all: red_in Hget.
  all: match goal with H : query_fault _ = _ |- _ => rewrite H in Hget end.
  all: red_in Hget; injection Hget as <- _ _.
  all: split; [reflexivity | split].
  all: try (intros H; try discriminate H; injection H as H;
            apply outcome_dict_inj in H as [Hs Hm]; try discriminate Hs;
            cbn [String.append] in Hm; discriminate Hm).
  all: intros fv rest Hfeats; simplify_eq.
  all: eexists; repeat constructor.
Qed.

Lemma register_face_lookup_failure_bypasses_witness :
  ∃ raised,
    (MilvusInsert [1 # 2; 1 # 4] (VInt 1), raised)
    ∈ events_of (register_face (with_query_fault (Some "timeout") (no_faults one_face []))
                   "m1" "img.jpg" (1 # 2) alice alice_stored).
Proof.
  apply (register_face_lookup_failure_bypasses
           (with_query_fault (Some "timeout") (no_faults one_face []))
           "m1" "img.jpg" (1 # 2) alice alice_stored (VInt 1)
           (MilvusException "timeout")) with (rest := []).
  - vm_compute. repeat constructor.
  - vm_compute. reflexivity.
Defined.
(** ** Unregistration *)

Lemma filter_all {A} (P : A → Prop) `{∀ x, Decision (P x)} (l : list A) :
  (∀ x, x ∈ l → P x) → filter P l = l.
Proof.
  induction l as [|x l IH]; intros Hall; [reflexivity|].
  rewrite filter_cons_True by (apply Hall; left).
  f_equal. apply IH. intros y Hy. apply Hall. right. exact Hy.
Qed.

(** C8.  When [collection.delete] is answered and the collection holds no
    entity for the identity, [unregister_face] returns status ["success"]
    and leaves the stores as they were.  Deleting is idempotent: a second
    call after any answered call returns ["success"] again and changes
    nothing. *)
Theorem unregister_face_absent env person_id w :
  let run := unregister_face env person_id w in
  let again := unregister_face env person_id (world_of run) in
  delete_fault env = None →
  ((∀ row, row ∈ collection w → row_person_id row ≠ person_id) →
   result_of run = Return (unregistered_outcome person_id) ∧ world_of run = w)
  ∧ result_of again = Return (unregistered_outcome person_id)
  ∧ world_of again = world_of run.
Proof.
  intros run again Hfault. subst run again.
  assert (Hrun : ∀ w0, unregister_face env person_id w0
            = (Return (unregistered_outcome person_id),
               {| collection := filter (λ r, row_person_id r ≠ person_id) (collection w0);
                  mysql_pending := mysql_pending w0;
                  mysql_table := mysql_table w0;
                  redis := redis w0 |},
               [(MilvusDelete person_id, None)])).
  { intros w0. destruct (unregister_face _ _ _) as [[r w'] evs] eqn:Hrun.
    red_in Hrun. rewrite Hfault in Hrun. exec_in Hrun. reflexivity. }
  rewrite !Hrun. unfold result_of, world_of. cbn [fst snd collection].
  split; [| split].
  - intros Habsent. split; [reflexivity|].
    rewrite filter_all by exact Habsent. destruct w; reflexivity.
  - reflexivity.
  - f_equal. apply filter_all. intros row [Hrow _]%list_elem_of_filter. exact Hrow.
Qed.

Lemma unregister_face_absent_witness :
  result_of (unregister_face (no_faults one_face []) (VInt 2) alice_stored)
  = Return (unregistered_outcome (VInt 2))
  ∧ world_of (unregister_face (no_faults one_face []) (VInt 2) alice_stored) = alice_stored.
Proof.
  destruct (unregister_face_absent (no_faults one_face []) (VInt 2) alice_stored)
    as [Habsent _].
  - reflexivity.
  - apply Habsent.
    intros row Hrow. apply list_elem_of_singleton in Hrow as ->. discriminate.
Defined.
(** ** Recognition *)

Lemma Qgt_bool_true (a b : Q) : Qgt_bool a b = true ↔ (b < a)%Q.
Proof.
  unfold Qgt_bool. rewrite negb_true_iff, <- not_true_iff_false, Qle_bool_iff.
  split; [apply Qnot_le_lt | apply Qlt_not_le].
Qed.

Lemma Qgt_bool_false (a b : Q) : Qgt_bool a b = false ↔ (a <= b)%Q.
Proof.
  unfold Qgt_bool. rewrite negb_false_iff. apply Qle_bool_iff.
Qed.

Lemma recognize_face_decides env model_name file_path threshold face_dist_threshold w data :
  let run := recognize_face env model_name file_path threshold face_dist_threshold w in
  (MilvusSearch data, None) ∈ events_of run →
  result_of run = decision (search_hits env data) face_dist_threshold.
Proof.
  intros run. subst run.
  destruct (recognize_face _ _ _ _ _ _) as [[r w'] evs] eqn:Hrun.
  unfold result_of, events_of; cbn [fst snd].
  exec_in Hrun.
  all: intros Hs; elem_inv Hs.
  all: injection Hs as <-.
  all: unfold decision, selected.
  all: repeat match goal with
         | H : search_hits _ _ = _ |- _ => rewrite H; clear H
         | H : sorted _ _ = _ |- _ => rewrite H; clear H
         end.
  all: try reflexivity.
  all: try (match goal with H : distances ?l = [] |- _ =>
              destruct l; [reflexivity | discriminate H] end).
  all: match goal with H : distances (_ :: _) = _ :: _ |- _ =>
         injection H as <- _ end.
  all: match goal with H : Qgt_bool _ _ = _ |- _ => rewrite H end; reflexivity.
Qed.




(** C3.  In every call of [recognize_face] in which the search has run and
    a candidate is selected: a distance equal to [face_dist_threshold]
    counts as a match, as does a distance below it; the returned
    dictionary carries the candidate's [person_id] as ["match_id"].  Only
    a distance above the threshold is rejected. *)
Theorem recognize_face_threshold env model_name file_path threshold
    face_dist_threshold w data hit :
  let run := recognize_face env model_name file_path threshold face_dist_threshold w in
  (MilvusSearch data, None) ∈ events_of run →
  selected (search_hits env data) = Some hit →
  ((hit_distance hit == face_dist_threshold)%Q →
   result_of run = Return (match_outcome (entity_get hit "person_id")))
  ∧ ((hit_distance hit < face_dist_threshold)%Q →
     result_of run = Return (match_outcome (entity_get hit "person_id")))
  ∧ match_outcome (entity_get hit "person_id") !! "match_id"
    = Some (entity_get hit "person_id").
Proof.
  intros run Hsearch Hsel. subst run.
  rewrite (recognize_face_decides _ _ _ _ _ _ _ Hsearch).
  unfold decision. rewrite Hsel.
  destruct (search_hits env data); [discriminate Hsel|].
  assert (Hle : (hit_distance hit <= face_dist_threshold)%Q →
                (if Qgt_bool (hit_distance hit) face_dist_threshold
                 then Return no_similar_outcome
                 else Return (match_outcome (entity_get hit "person_id")))
                = Return (match_outcome (entity_get hit "person_id"))).
  { intros Hle. apply Qgt_bool_false in Hle. rewrite Hle. reflexivity. }
  split; [| split].
  - intros Heq. apply Hle. rewrite Heq. apply Qle_refl.
  - intros Hlt. apply Hle. apply Qlt_le_weak. exact Hlt.
  - unfold match_outcome. rewrite !lookup_insert_ne by done.
    apply lookup_singleton_eq.
Qed.

Lemma recognize_face_threshold_witness :
  result_of (recognize_face (no_faults one_face [[candidate (1 # 20) 1]])
               "m1" "img.jpg" (1 # 2) (1 # 10) alice_stored)
  = Return (match_outcome (VInt 1)).
Proof.
  destruct (recognize_face_threshold
              (no_faults one_face [[candidate (1 # 20) 1]])
              "m1" "img.jpg" (1 # 2) (1 # 10) alice_stored
              (VArray [[1 # 2; 1 # 4]]) (candidate (1 # 20) 1)) as (_ & Hbelow & _).
  - vm_compute. repeat constructor.
  - reflexivity.
  - apply Hbelow. reflexivity.
Defined.

(** The claim of C3 fails where the distance equals the threshold: the
    call reports a match with the candidate's identity. *)
Lemma recognize_face_distance_equal_threshold :
  result_of (recognize_face (no_faults one_face [[candidate (1 # 10) 7]])
               "m1" "img.jpg" (1 # 2) (1 # 10) alice_stored)
  = Return (match_outcome (VInt 7))
  ∧ match_outcome (VInt 7) !! "match_id" = Some (VInt 7).
Proof. split; vm_compute; reflexivity. Qed.

(** With one query vector there is one result group, which the sort
    leaves as it is: the candidate taken is the first hit of the group,
    in the order in which the search returned the hits. *)
Lemma selected_single_group (hits : Hits) : selected [hits] = head hits.
Proof. destruct hits; reflexivity. Qed.


(** *** The sort *)

Lemma list_lt_first (a b : Q) (a' b' : list Q) :
  list_lt (a :: a') (b :: b') = true → (a <= b)%Q.
Proof.
  cbn. destruct (Qeq_bool a b) eqn:Heq.
  - intros _. apply Qeq_bool_iff in Heq. rewrite Heq. apply Qle_refl.
  - intros Hgt. apply Qgt_bool_true in Hgt. apply Qlt_le_weak. exact Hgt.
Qed.

Lemma list_lt_first_false (a b : Q) (a' b' : list Q) :
  list_lt (a :: a') (b :: b') = false → (b <= a)%Q.
Proof.
  cbn. destruct (Qeq_bool a b) eqn:Heq.
  - intros _. apply Qeq_bool_iff in Heq. rewrite Heq. apply Qle_refl.
  - intros Hgt. apply Qgt_bool_false in Hgt. exact Hgt.
Qed.

Lemma elem_of_insert_by {A} (key : A → list Q) (x y : A) (l : list A) :
  y ∈ insert_by key x l ↔ y = x ∨ y ∈ l.
Proof.
  induction l as [|z l IH]; cbn.
  - rewrite list_elem_of_singleton, elem_of_nil. tauto.
  - destruct (list_lt (key z) (key x)).
    + rewrite !elem_of_cons, IH. tauto.
    + rewrite !elem_of_cons. tauto.
Qed.

Lemma elem_of_sorted {A} (key : A → list Q) (y : A) (l : list A) :
  y ∈ sorted l key ↔ y ∈ l.
Proof.
  unfold sorted. induction l as [|x l IH]; cbn; [reflexivity|].
  rewrite elem_of_insert_by, IH, elem_of_cons. reflexivity.
Qed.

Lemma group_le_refl (g : Hits) : group_le g g.
Proof. destruct g; cbn; [exact I | apply Qle_refl]. Qed.

Lemma group_le_trans (g h k : Hits) :
  h ≠ [] → group_le g h → group_le h k → group_le g k.
Proof.
  destruct g as [|a g], h as [|b h], k as [|c k]; cbn; try tauto.
  intros _. apply Qle_trans.
Qed.

Lemma list_lt_group_le (g h : Hits) :
  list_lt (distances g) (distances h) = true → group_le g h.
Proof.
  destruct g as [|a g], h as [|b h]; cbn; try tauto.
  apply list_lt_first.
Qed.

Lemma list_lt_false_group_le (g h : Hits) :
  list_lt (distances g) (distances h) = false → group_le h g.
Proof.
  destruct g as [|a g], h as [|b h]; cbn; try tauto.
  apply list_lt_first_false.
Qed.

(** The group at the front after the sort is one of the groups, and its
    first hit is at least as close as the first hit of every group. *)
Lemma sorted_head_closest (results : list Hits) (h : Hits) (t : list Hits) :
  (∀ g, g ∈ results → g ≠ []) →
  sorted results (λ k, distances k) = h :: t →
  h ∈ results ∧ ∀ g, g ∈ results → group_le h g.
Proof.
  revert h t. induction results as [|x l IH]; intros h t Hne Hs; [discriminate Hs|].
  assert (Hne' : ∀ g, g ∈ l → g ≠ []) by (intros g Hg; apply Hne; right; exact Hg).
  unfold sorted in Hs. cbn in Hs. fold (sorted l (λ k, distances k)) in Hs.
  destruct (sorted l (λ k, distances k)) as [|h' t'] eqn:Hl.
  - cbn in Hs. injection Hs as <- <-.
    assert (l = []) as ->.
    { destruct l as [|y l]; [reflexivity|].
      assert (Hy : y ∈ sorted (y :: l) (λ k, distances k))
        by (apply elem_of_sorted; left).
      rewrite Hl in Hy. apply elem_of_nil in Hy. contradiction. }
    split; [left|]. intros g Hg. apply list_elem_of_singleton in Hg as ->.
    apply group_le_refl.
  - destruct (IH h' t' Hne' eq_refl) as [Hin Hmin].
    cbn in Hs. destruct (list_lt (distances h') (distances x)) eqn:Hlt.
    + injection Hs as <- _. split; [right; exact Hin|].
      intros g [-> | Hg]%elem_of_cons; [| apply Hmin; exact Hg].
      apply list_lt_group_le. exact Hlt.
    + injection Hs as <- _. split; [left|].
      intros g [-> | Hg]%elem_of_cons; [apply group_le_refl|].
      apply (group_le_trans _ h'); [apply Hne'; exact Hin | | apply Hmin; exact Hg].
      apply list_lt_false_group_le. exact Hlt.
Qed.

(** C4.  [recognize_face] sorts the result groups of the search (one per
    query descriptor) by their distance lists and takes the first hit of
    the first group; the hits inside a group stay in the order in which
    the search returned them.  When the first hit of every group is a
    closest one of its group, as the search promises, the selected
    candidate has the minimum distance of all candidates, whatever the
    order of the groups, and its identity is the one reported as the
    match. *)
Theorem recognize_face_selects_minimum env model_name file_path threshold
    face_dist_threshold w data hit :
  let run := recognize_face env model_name file_path threshold face_dist_threshold w in
  (MilvusSearch data, None) ∈ events_of run →
  (∀ g, g ∈ search_hits env data → g ≠ [] ∧ first_is_closest g) →
  selected (search_hits env data) = Some hit →
  (∀ g c, g ∈ search_hits env data → c ∈ g → (hit_distance hit <= hit_distance c)%Q)
  ∧ ((hit_distance hit <= face_dist_threshold)%Q →
     result_of run = Return (match_outcome (entity_get hit "person_id"))).
Proof.
  intros run Hsearch Hgroups Hsel. subst run. split.
  - unfold selected in Hsel.
    destruct (sorted _ _) as [|[|first rest] t] eqn:Hs; try discriminate Hsel.
    injection Hsel as ->.
    destruct (sorted_head_closest _ _ _ (λ g Hg, proj1 (Hgroups g Hg)) Hs) as [_ Hmin].
    intros g c Hg Hc. specialize (Hmin g Hg).
    destruct (Hgroups g Hg) as [_ Hfirst].
    destruct g as [|b g]; [apply elem_of_nil in Hc; contradiction|].
    cbn in Hmin, Hfirst. apply elem_of_cons in Hc as [-> | Hc]; [exact Hmin|].
    apply (Qle_trans _ (hit_distance b)); [exact Hmin | apply Hfirst; exact Hc].
  - intros Hle. rewrite (recognize_face_decides _ _ _ _ _ _ _ Hsearch).
    unfold decision. rewrite Hsel.
    destruct (search_hits env data); [discriminate Hsel|].
    apply Qgt_bool_false in Hle. rewrite Hle. reflexivity.
Qed.

Lemma recognize_face_selects_minimum_witness :
  result_of (recognize_face (no_faults one_face grouped_hits)
               "m1" "img.jpg" (1 # 2) (1 # 4) alice_stored)
  = Return (match_outcome (VInt 7)).
Proof.
  apply (recognize_face_selects_minimum (no_faults one_face grouped_hits)
           "m1" "img.jpg" (1 # 2) (1 # 4) alice_stored (VArray [[1 # 2; 1 # 4]])
           (candidate (5 # 100) 7)).
  - vm_compute. repeat constructor.
  - intros g Hg. cbn in Hg. unfold grouped_hits in Hg.
    repeat (apply elem_of_cons in Hg as [-> | Hg]);
      [| | | apply elem_of_nil in Hg; contradiction].
    all: split; [discriminate | intros c Hc; apply elem_of_nil in Hc; contradiction].
  - vm_compute. reflexivity.
  - vm_compute. discriminate.
Defined.

(** The claim of C4 fails when the search returns the three candidates
    in one group that is not in ascending order: with threshold 0.25 the
    call reports identity 3, whose distance 0.2 is not the minimum 0.05 of
    identity 7; with the default threshold it reports no match at all. *)
Lemma recognize_face_takes_first_hit :
  result_of (recognize_face (no_faults one_face unordered_hits)
               "m1" "img.jpg" (1 # 2) (1 # 4) alice_stored)
  = Return (match_outcome (VInt 3))
  ∧ match_outcome (VInt 3) ≠ match_outcome (VInt 7)
  ∧ result_of (recognize_face (no_faults one_face unordered_hits)
                 "m1" "img.jpg" (1 # 2) default_face_dist_threshold alice_stored)
    = Return no_similar_outcome.
Proof.
  split; [vm_compute; reflexivity | split; [| vm_compute; reflexivity]].
  intros H. apply (f_equal (λ d : dict, d !! "match_id")) in H.
  vm_compute in H. discriminate H.
Qed.

(** The groups may come in any order. *)
Example recognize_face_sorts_groups :
  selected [[candidate (3 # 10) 9]; [candidate (2 # 10) 3]; [candidate (5 # 100) 7]]
  = Some (candidate (5 # 100) 7)
  ∧ selected [[candidate (5 # 100) 7]; [candidate (3 # 10) 9]; [candidate (2 # 10) 3]]
    = Some (candidate (5 # 100) 7).
Proof. split; vm_compute; reflexivity. Qed.

(** * Further properties of the code *)

(** ** The two parts of [register_face] *)

Lemma register_face_unfold env model_name file_path threshold person_data :
  register_face env model_name file_path threshold person_data =
  (pred_dict ← inference env file_path model_name threshold;
  status ← getitem pred_dict "status";
  no_face ← (if py_eq status (VInt 0)
             then face_detections ← getitem pred_dict "face_detections";
                  mret (negb (truthy face_detections))
             else mret false);
  if (no_face : bool)
  then mret {[ "status" := VStr "failed";
               "message" := VStr "No faces were detected in the image" ]}
  else
  status ← getitem pred_dict "status";
  negative ← py_lt0 status;
  if (negative : bool)
  then mret (<[ "status" := VStr "failed" ]> pred_dict)
  else
  person_id ← getitem person_data "id";
  registered ← get_registered_face env person_id;
  registered_status ← getitem registered "status";
  if py_eq registered_status (VStr "success")
  then mret {[ "status" := VStr "failed";
               "message" := VStr ("person with id " +:+ py_str person_id +:+
                                  " already exists in milvus db") ]}
  else
  store_person env pred_dict person_data person_id).
Proof. reflexivity. Qed.

(* Runs the first part of [register_face], up to [store_person]. *)
Ltac exec_prefix_in H :=
  rewrite register_face_unfold in H; exec_in H.

(** A call of [register_face] either ends before [store_person], having
    read only, or it is the inference and the lookup followed by
    [store_person]; the lookup then failed or found no entity. *)
Lemma register_face_cases env model_name file_path threshold person_data w :
  let run := register_face env model_name file_path threshold person_data w in
  let pred_dict := run_inference env file_path model_name threshold in
  (world_of run = w
   ∧ (∀ d, result_of run = Return d → d !! "status" = Some (VStr "failed"))
   ∧ (events_of run = [(RunInference file_path model_name threshold, None)]
      ∨ ∃ person_id row,
          person_data !! "id" = Some person_id
          ∧ row ∈ collection w ∧ row_person_id row = person_id
          ∧ result_of run = Return (duplicate_outcome person_id)
          ∧ events_of run = [(RunInference file_path model_name threshold, None);
                             (MilvusQuery person_id, None)]))
  ∨ (∃ person_id q,
       person_data !! "id" = Some person_id
       ∧ run = after_events [(RunInference file_path model_name threshold, None);
                             (MilvusQuery person_id, q)]
                 (store_person env pred_dict person_data person_id w)
       ∧ (q = None → ∀ row, row ∈ collection w → row_person_id row ≠ person_id)).
Proof.
  intros run pred_dict. subst run pred_dict.
  destruct (register_face _ _ _ _ _ _) as [[r w'] evs] eqn:Hrun.
  unfold result_of, events_of, world_of; cbn [fst snd].
  exec_prefix_in Hrun.
  (* the lookup answered with an entity that has no ["person_id"]: impossible *)
  all: try (match goal with H : take _ _ = ?d :: _, H' : ?d !! "person_id" = None |- _ =>
              apply query_rows_head in H as (row & _ & ->);
              rewrite lookup_singleton_eq in H'; discriminate H' end).
  (* [store_person] was reached *)
  all: try (match goal with H : store_person _ _ _ ?pid _ = _ |- _ =>
              right; exists pid; eexists; split; [reflexivity |];
              split; [rewrite H; reflexivity |];
              first [ intros Hq; discriminate Hq
                    | intros _;
                      match goal with H' : take _ _ = [] |- _ =>
                        exact (query_rows_nil _ _ H') end ]
            end).
  (* the call ended before *)
  all: left; split; [reflexivity |].
  all: split; [first [ intros d Hd; discriminate Hd
                     | intros d [= <-]; apply lookup_insert_eq ] |].
  all: try (left; reflexivity).
  all: right.
  all: match goal with H : take _ _ = _ :: _ |- _ =>
         apply query_rows_head in H as (row & [Hrow Hin]%list_elem_of_filter & _) end.
  all: eexists _, row; repeat split; [exact Hin | exact Hrow].
Qed.

(* Runs [store_person] along every path. *)
Ltac exec_store_in H := unfold store_person in H; exec_in H.

(* Takes the two events of the first part off [H : ev ∈ events_of (after_events ...)]. *)
Ltac skip_prefix H :=
  unfold after_events, events_of in H; cbn [fst snd app] in H;
  apply elem_of_cons in H as [H | H]; [discriminate H |];
  apply elem_of_cons in H as [H | H]; [discriminate H |];
  fold (events_of (A:=dict)) in H.


(** ** Registration: a failing vector insert *)

Lemma store_person_insert_failure env pred_dict person_data person_id w face_vector p e :
  let run := store_person env pred_dict person_data person_id w in
  (MilvusInsert face_vector p, Some e) ∈ events_of run →
  result_of run = Return (failed "milvus insertion error")
  ∧ world_of run = w
  ∧ events_of run = [(MilvusInsert face_vector p, Some e)].
Proof.
  intros run. subst run.
  destruct (store_person _ _ _ _ _) as [[r w'] evs] eqn:Hrun.
  unfold result_of, events_of, world_of; cbn [fst snd].
  exec_store_in Hrun.
  all: intros H; elem_inv H.
  all: injection H as <- <- <-. all: repeat split.
Qed.

(** X1.  When [collection.insert] raises, [register_face] returns the
    failed dictionary with the message ["milvus insertion error"]; the
    stores are as before and the insert is the last call made (no flush, no
    SQL, no cache, no delete). *)
Theorem register_face_insert_failure env model_name file_path threshold person_data w
    face_vector person_id e :
  let run := register_face env model_name file_path threshold person_data w in
  (MilvusInsert face_vector person_id, Some e) ∈ events_of run →
  result_of run = Return (failed "milvus insertion error")
  ∧ world_of run = w
  ∧ last (events_of run) = Some (MilvusInsert face_vector person_id, Some e).
Proof.
  intros run H. subst run.
  destruct (register_face_cases env model_name file_path threshold person_data w)
    as [(_ & _ & [Hev | (p & row & _ & _ & _ & _ & Hev)])
       | (p & q & _ & Hrun & _)].
  - rewrite Hev in H. elem_inv H.
  - rewrite Hev in H. elem_inv H.
  - rewrite Hrun in *. skip_prefix H.
    destruct (store_person_insert_failure _ _ _ _ _ _ _ _ H) as (Hres & Hw & Hev).
    unfold after_events, result_of, world_of, events_of in *. cbn [fst snd] in *.
    rewrite Hres, Hw, Hev. repeat split.
Qed.

Lemma register_face_insert_failure_witness :
  result_of (register_face (with_insert_fault (Some "collection not loaded")
                              (no_faults one_face []))
               "m1" "img.jpg" (1 # 2) alice empty_world)
  = Return (failed "milvus insertion error").
Proof.
  apply (register_face_insert_failure
           (with_insert_fault (Some "collection not loaded") (no_faults one_face []))
           "m1" "img.jpg" (1 # 2) alice empty_world [1 # 2; 1 # 4] (VInt 1)
           (MilvusException "collection not loaded")).
  vm_compute. repeat constructor.
Defined.

(** ** Registration: what a failed run leaves behind *)

Lemma store_person_flush_failure env pred_dict person_data person_id w e :
  let run := store_person env pred_dict person_data person_id w in
  (MilvusFlush, Some e) ∈ events_of run →
  ∃ face_vector,
    result_of run = Raise e
    ∧ world_of run
      = {| collection := collection w ++ [ {| row_embedding := face_vector;
                                              row_person_id := person_id |} ];
           mysql_pending := mysql_pending w;
           mysql_table := mysql_table w;
           redis := redis w |}
    ∧ events_of run = [(MilvusInsert face_vector person_id, None); (MilvusFlush, Some e)].
Proof.
  intros run. subst run.
  destruct (store_person _ _ _ _ _) as [[r w'] evs] eqn:Hrun.
  unfold result_of, events_of, world_of; cbn [fst snd].
  exec_store_in Hrun.
  all: intros H; elem_inv H.
  all: injection H as <-. all: eexists; repeat split.
Qed.

(** X2.  When [collection.flush] raises, the entity that was just inserted
    stays in the collection: [register_face] raises without a metadata
    row, without a cache entry and without deleting the vector. *)
Theorem register_face_flush_failure_orphan env model_name file_path threshold
    person_data w e :
  let run := register_face env model_name file_path threshold person_data w in
  (MilvusFlush, Some e) ∈ events_of run →
  ∃ face_vector person_id,
    person_data !! "id" = Some person_id
    ∧ collection (world_of run)
      = collection w ++ [ {| row_embedding := face_vector; row_person_id := person_id |} ]
    ∧ mysql_pending (world_of run) = mysql_pending w
    ∧ mysql_table (world_of run) = mysql_table w
    ∧ redis (world_of run) = redis w
    ∧ ∀ p raised, (MilvusDelete p, raised) ∉ events_of run.
Proof.
  intros run H. subst run.
  destruct (register_face_cases env model_name file_path threshold person_data w)
    as [(_ & _ & [Hev | (p & row & _ & _ & _ & _ & Hev)])
       | (p & q & Hid & Hrun & _)].
  - rewrite Hev in H. elem_inv H.
  - rewrite Hev in H. elem_inv H.
  - rewrite Hrun in *. skip_prefix H.
    destruct (store_person_flush_failure _ _ _ _ _ _ H) as (fv & _ & Hw & Hev).
    unfold after_events, world_of, events_of in *. cbn [fst snd] in *.
    rewrite Hw, Hev. exists fv, p. repeat split; [exact Hid |].
    intros p' raised Hdel. cbn [app] in Hdel. elem_inv Hdel.
Qed.

Lemma register_face_flush_failure_orphan_witness :
  ∃ face_vector person_id,
    alice !! "id" = Some person_id
    ∧ collection (world_of (register_face
                              (with_flush_fault (Some "timeout") (no_faults one_face []))
                              "m1" "img.jpg" (1 # 2) alice empty_world))
      = collection empty_world
        ++ [ {| row_embedding := face_vector; row_person_id := person_id |} ].
Proof.
  destruct (register_face_flush_failure_orphan
              (with_flush_fault (Some "timeout") (no_faults one_face []))
              "m1" "img.jpg" (1 # 2) alice empty_world (MilvusException "timeout"))
    as (fv & pid & Hid & Hcoll & _).
  - vm_compute. repeat constructor.
  - exists fv, pid. split; [exact Hid | exact Hcoll].
Defined.

Lemma store_person_missing_column env pred_dict person_data person_id w face_vector p k :
  let run := store_person env pred_dict person_data person_id w in
  (MilvusInsert face_vector p, None) ∈ events_of run →
  k ∈ tail columns → person_data !! k = None →
  (∃ e, result_of run = Raise e)
  ∧ world_of run
    = {| collection := collection w ++ [ {| row_embedding := face_vector;
                                            row_person_id := person_id |} ];
         mysql_pending := mysql_pending w;
         mysql_table := mysql_table w;
         redis := redis w |}
  ∧ (∀ c raised, (c, raised) ∈ events_of run →
       c = MilvusInsert face_vector person_id ∨ c = MilvusFlush).
Proof.
  intros run. subst run.
  destruct (store_person _ _ _ _ _) as [[r w'] evs] eqn:Hrun.
  unfold result_of, events_of, world_of; cbn [fst snd].
  exec_store_in Hrun.
  all: intros Hins Hk Hnone; elem_inv Hins.
  all: injection Hins as <- <-.
  all: try (exfalso; cbn in Hk;
            repeat (apply elem_of_cons in Hk as [-> | Hk]);
            [congruence .. | apply elem_of_nil in Hk; exact Hk]).
  all: split; [eexists; reflexivity |]; split; [reflexivity |].
  all: intros c raised Hc; elem_inv Hc; injection Hc as -> _; tauto.
Qed.

(** X3.  When the vector insert succeeded and [person_data] lacks one of
    the columns of the [INSERT] statement, [register_face] raises; the
    entity stays in the collection, and neither MySQL nor Redis nor
    [collection.delete] is called. *)
Theorem register_face_missing_column env model_name file_path threshold person_data w
    face_vector person_id k :
  let run := register_face env model_name file_path threshold person_data w in
  (MilvusInsert face_vector person_id, None) ∈ events_of run →
  k ∈ columns → person_data !! k = None →
  (∃ e, result_of run = Raise e)
  ∧ collection (world_of run)
    = collection w ++ [ {| row_embedding := face_vector; row_person_id := person_id |} ]
  ∧ mysql_pending (world_of run) = mysql_pending w
  ∧ mysql_table (world_of run) = mysql_table w
  ∧ redis (world_of run) = redis w
  ∧ (∀ c raised, (c, raised) ∈ events_of run →
       reads_only c = true ∨ c = MilvusInsert face_vector person_id ∨ c = MilvusFlush).
Proof.
  intros run H Hk Hnone. subst run.
  destruct (register_face_cases env model_name file_path threshold person_data w)
    as [(_ & _ & [Hev | (p & row & _ & _ & _ & _ & Hev)])
       | (p & q & Hid & Hrun & _)].
  - rewrite Hev in H. elem_inv H.
  - rewrite Hev in H. elem_inv H.
  - rewrite Hrun in *. skip_prefix H.
    apply elem_of_cons in Hk as [-> | Hk]; [congruence |].
    destruct (store_person_missing_column _ _ _ _ _ _ _ _ H Hk Hnone)
      as ((e & Hres) & Hw & Hev).
    unfold after_events, result_of, world_of, events_of in *. cbn [fst snd] in *.
    rewrite Hres, Hw.
    assert (person_id = p) as ->.
    { destruct (store_person _ _ _ _ _) as [[r w'] evs]. cbn [fst snd] in *.
      destruct (Hev _ _ H) as [[= ->] | [=]]. reflexivity. }
    split; [eexists; reflexivity |]. repeat split.
    intros c raised Hc. cbn [app] in Hc.
    apply elem_of_cons in Hc as [[= -> _] | Hc]; [left; reflexivity |].
    apply elem_of_cons in Hc as [[= -> _] | Hc]; [left; reflexivity |].
    right. exact (Hev _ _ Hc).
Qed.

Lemma register_face_missing_column_witness :
  ∃ e, result_of (register_face (no_faults one_face []) "m1" "img.jpg" (1 # 2)
                    alice_undated empty_world) = Raise e.
Proof.
  apply (register_face_missing_column (no_faults one_face []) "m1" "img.jpg" (1 # 2)
           alice_undated empty_world [1 # 2; 1 # 4] (VInt 1) "birthdate").
  - vm_compute. repeat constructor.
  - unfold columns. repeat constructor.
  - vm_compute. reflexivity.
Defined.

(** ** The lookup by identity *)

Lemma Return_inj {A} (a b : A) : Return a = Return b → a = b.
Proof. congruence. Qed.

Lemma get_registered_face_lookup env person_id w :
  let run := get_registered_face env person_id w in
  query_fault env = None →
  world_of run = w
  ∧ events_of run = [(MilvusQuery person_id, None)]
  ∧ ((∃ row, row ∈ collection w ∧ row_person_id row = person_id) →
     result_of run = Return (success ("Person " +:+ py_str person_id +:+ " found")))
  ∧ ((∀ row, row ∈ collection w → row_person_id row ≠ person_id) →
     result_of run
     = Return (failed ("Person with id " +:+ py_str person_id +:+ " not found in database"))).
Proof.
  intros run Hfault. subst run.
  destruct (get_registered_face _ _ _) as [[r w'] evs] eqn:Hrun.
  unfold result_of, events_of, world_of; cbn [fst snd].
  red_in Hrun. rewrite Hfault in Hrun. exec_in Hrun.
  - repeat split. intros (row & Hin & Hrow).
    match goal with H : take _ _ = [] |- _ =>
      exfalso; exact (query_rows_nil _ _ H row Hin Hrow) end.
  - match goal with H : take _ _ = _ :: _ |- _ =>
      apply query_rows_head in H as (row & [Hrow Hin]%list_elem_of_filter & ->) end.
    rewrite lookup_singleton_eq in *. simplify_eq. repeat split.
    intros Habsent. exfalso. exact (Habsent row Hin eq_refl).
  - match goal with H : take _ _ = _ :: _ |- _ =>
      apply query_rows_head in H as (row & _ & ->) end.
    rewrite lookup_singleton_eq in *. discriminate.
Qed.

(** X4.  An answered lookup is an exact match on [person_id]:
    [get_registered_face] reports success exactly when the collection
    holds an entity for the identity, names that identity in the message,
    and changes nothing. *)
Theorem get_registered_face_answered env person_id w :
  let run := get_registered_face env person_id w in
  query_fault env = None →
  world_of run = w
  ∧ ((∃ row, row ∈ collection w ∧ row_person_id row = person_id) ↔
     result_of run = Return (success ("Person " +:+ py_str person_id +:+ " found")))
  ∧ ((∀ row, row ∈ collection w → row_person_id row ≠ person_id) ↔
     result_of run
     = Return (failed ("Person with id " +:+ py_str person_id +:+ " not found in database"))).
Proof.
  intros run Hfault. subst run.
  destruct (get_registered_face_lookup env person_id w Hfault)
    as (Hw & _ & Hfound & Habsent).
  split; [exact Hw |].
  destruct (decide (Exists (λ row, row_person_id row = person_id) (collection w)))
    as [Hex | Hex].
  - apply Exists_exists in Hex as (row & Hin & Hrow).
    assert (Hsome : ∃ row, row ∈ collection w ∧ row_person_id row = person_id) by eauto.
    rewrite (Hfound Hsome). split; [tauto |].
    split.
    + intros Hall. exfalso. exact (Hall row Hin Hrow).
    + intros H. exfalso. apply Return_inj, outcome_dict_inj in H as [Hs _].
      discriminate Hs.
  - assert (Hall : ∀ row, row ∈ collection w → row_person_id row ≠ person_id).
    { intros row Hin Hrow. apply Hex. apply Exists_exists. eauto. }
    rewrite (Habsent Hall). split; [| tauto].
    split.
    + intros (row & Hin & Hrow). exfalso. exact (Hall row Hin Hrow).
    + intros H. exfalso. apply Return_inj, outcome_dict_inj in H as [Hs _].
      discriminate Hs.
Qed.

Lemma get_registered_face_answered_witness :
  result_of (get_registered_face (no_faults one_face []) (VInt 1) alice_stored)
  = Return (success ("Person " +:+ py_str (VInt 1) +:+ " found")).
Proof.
  destruct (get_registered_face_answered (no_faults one_face []) (VInt 1) alice_stored)
    as (_ & Hfound & _).
  - reflexivity.
  - apply Hfound. exists alice_row. split; [left | reflexivity].
Defined.

(** ** Registration: what a successful run writes *)

Lemma store_person_success env pred_dict person_data person_id w d :
  let run := store_person env pred_dict person_data person_id w in
  result_of run = Return d →
  d !! "status" = Some (VStr "success") →
  ∃ face_vector rest birthdate cached,
    mapM (λ k, person_data !! k) (tail columns) = Some rest
    ∧ person_data !! "birthdate" = Some birthdate
    ∧ collection (world_of run)
      = collection w ++ [ {| row_embedding := face_vector; row_person_id := person_id |} ]
    ∧ mysql_table (world_of run)
      = mysql_table w ++ mysql_pending w ++ [person_id :: rest]
    ∧ mysql_pending (world_of run) = []
    ∧ redis (world_of run) !! (MYSQL_PERSON_TABLE +:+ "_" +:+ py_str person_id)
      = Some (cached, 3600)
    ∧ (∀ k v, <[ "birthdate" := VStr (py_str birthdate) ]> person_data !! k = Some v →
              cached !! k = Some v).
Proof.
  intros run. subst run.
  destruct (store_person _ _ _ _ _) as [[r w'] evs] eqn:Hrun.
  unfold result_of, world_of; cbn [fst snd].
  exec_store_in Hrun.
  all: intros Hres Hst; try discriminate Hres; injection Hres as <-.
  all: rewrite lookup_insert_eq in Hst; try discriminate Hst.
  all: cbn [collection mysql_table mysql_pending redis].
  all: eexists _, _, _, _.
  all: split;
    [ cbn;
      repeat match goal with H : _ !! _ = Some _ |- _ => rewrite H; clear H end;
      reflexivity |].
  all: do 4 (split; [reflexivity |]).
  all: split; [apply lookup_insert_eq |].
  all: intros k v Hk; first [exact Hk | apply lookup_union_Some_l; exact Hk].
Qed.

(** X5.  A call of [register_face] that returns status ["success"] has
    appended the entity to the collection, committed one row with the
    columns of the [INSERT] statement in their order (together with any
    rows that were pending on the connection), and cached the person data
    under the key [person_<id>] with the birth date as text and a time to
    live of 3600 seconds. *)
Theorem register_face_success_writes env model_name file_path threshold person_data w d :
  let run := register_face env model_name file_path threshold person_data w in
  result_of run = Return d →
  d !! "status" = Some (VStr "success") →
  ∃ face_vector person_id values birthdate cached,
    mapM (λ k, person_data !! k) columns = Some values
    ∧ person_data !! "id" = Some person_id
    ∧ person_data !! "birthdate" = Some birthdate
    ∧ collection (world_of run)
      = collection w ++ [ {| row_embedding := face_vector; row_person_id := person_id |} ]
    ∧ mysql_table (world_of run) = mysql_table w ++ mysql_pending w ++ [values]
    ∧ mysql_pending (world_of run) = []
    ∧ redis (world_of run) !! ("person_" +:+ py_str person_id) = Some (cached, 3600)
    ∧ (∀ k v, <[ "birthdate" := VStr (py_str birthdate) ]> person_data !! k = Some v →
              cached !! k = Some v).
Proof.
  intros run Hres Hst. subst run.
  destruct (register_face_cases env model_name file_path threshold person_data w)
    as [(_ & Hfailed & _) | (p & q & Hid & Hrun & _)].
  - rewrite (Hfailed d Hres) in Hst. discriminate Hst.
  - rewrite Hrun in *. unfold after_events, result_of, world_of in *.
    cbn [fst snd] in *.
    destruct (store_person_success _ _ _ _ _ _ Hres Hst)
      as (fv & rest & bd & cached & Hrest & Hbd & Hcoll & Htable & Hpending & Hredis & Hc).
    exists fv, p, (p :: rest), bd, cached.
    split; [| repeat split; assumption].
    change (mapM (λ k, person_data !! k) columns)
      with (person_data !! "id" ≫= λ x,
            mapM (λ k, person_data !! k) (tail columns) ≫= λ l, mret (x :: l)).
    rewrite Hid. cbn [mbind option_bind]. rewrite Hrest. reflexivity.
Qed.

Lemma register_face_success_writes_witness :
  ∃ values,
    mysql_table (world_of (register_face (no_faults one_face []) "m1" "img.jpg" (1 # 2)
                             alice_named empty_world))
    = mysql_table empty_world ++ mysql_pending empty_world ++ [values]
    ∧ mapM (λ k, alice_named !! k) columns = Some values.
Proof.
  destruct (register_face_success_writes (no_faults one_face []) "m1" "img.jpg" (1 # 2)
              alice_named empty_world (success "Person Alice successfully registered"))
    as (fv & pid & values & bd & cached & Hvalues & _ & _ & _ & Htable & _).
  - vm_compute. reflexivity.
  - apply lookup_status.
  - exists values. split; [exact Htable | exact Hvalues].
Defined.

(** ** Registration: the last line *)

Lemma store_person_person_name env pred_dict person_data person_id w key ttl :
  let run := store_person env pred_dict person_data person_id w in
  (RedisExpire key ttl, None) ∈ events_of run →
  person_data !! "person_name" = None →
  result_of run = Raise (KeyError "person_name")
  ∧ (MysqlCommit, None) ∈ events_of run
  ∧ ∃ face_vector,
      collection (world_of run)
      = collection w ++ [ {| row_embedding := face_vector; row_person_id := person_id |} ].
Proof.
  intros run. subst run.
  destruct (store_person _ _ _ _ _) as [[r w'] evs] eqn:Hrun.
  unfold result_of, events_of, world_of; cbn [fst snd].
  exec_store_in Hrun.
  all: intros H Hnone; elem_inv H.
  all: try (match goal with H' : <[ _ := _ ]> _ !! "person_name" = Some _ |- _ =>
              rewrite lookup_insert_ne in H' by done; congruence end).
  all: split; [reflexivity |]; split; [repeat constructor | eexists; reflexivity].
Qed.

(** X6.  When every step of [register_face] up to the cache expiry has
    succeeded and [person_data] has no key ["person_name"], the call does
    not return: it raises [KeyError] for that key, after the entity, the
    committed row and the cache entry have been written. *)
Theorem register_face_person_name env model_name file_path threshold person_data w key ttl :
  let run := register_face env model_name file_path threshold person_data w in
  (RedisExpire key ttl, None) ∈ events_of run →
  person_data !! "person_name" = None →
  result_of run = Raise (KeyError "person_name")
  ∧ (MysqlCommit, None) ∈ events_of run
  ∧ ∃ face_vector person_id,
      person_data !! "id" = Some person_id
      ∧ collection (world_of run)
        = collection w ++ [ {| row_embedding := face_vector; row_person_id := person_id |} ].
Proof.
  intros run H Hnone. subst run.
  destruct (register_face_cases env model_name file_path threshold person_data w)
    as [(_ & _ & [Hev | (p & row & _ & _ & _ & _ & Hev)])
       | (p & q & Hid & Hrun & _)].
  - rewrite Hev in H. elem_inv H.
  - rewrite Hev in H. elem_inv H.
  - rewrite Hrun in *. skip_prefix H.
    destruct (store_person_person_name _ _ _ _ _ _ _ H Hnone) as (Hres & Hcommit & fv & Hcoll).
    unfold after_events, result_of, world_of, events_of in *. cbn [fst snd] in *.
    split; [exact Hres |]. split; [do 2 right; exact Hcommit |].
    exists fv, p. split; [exact Hid | exact Hcoll].
Qed.

Lemma register_face_person_name_witness :
  result_of (register_face (no_faults one_face []) "m1" "img.jpg" (1 # 2) alice empty_world)
  = Raise (KeyError "person_name").
Proof.
  apply (register_face_person_name (no_faults one_face []) "m1" "img.jpg" (1 # 2)
           alice empty_world "person_1" 3600).
  - vm_compute. repeat constructor.
  - vm_compute. reflexivity.
Defined.

(** ** Registration: the order of the calls *)

Lemma store_person_call_order env pred_dict person_data person_id w :
  let run := store_person env pred_dict person_data person_id w in
  (∀ face_vector p raised,
     (MilvusInsert face_vector p, raised) ∈ events_of run →
     p = person_id
     ∧ ∃ rest, pred_dict !! "face_feats" = Some (VArray (face_vector :: rest)))
  ∧ (∀ values raised,
       (MysqlExecute values, raised) ∈ events_of run →
       (∃ face_vector, (MilvusInsert face_vector person_id, None) ∈ events_of run)
       ∧ (MilvusFlush, None) ∈ events_of run
       ∧ ∃ rest, mapM (λ k, person_data !! k) (tail columns) = Some rest
                 ∧ values = person_id :: rest)
  ∧ ((MysqlCursor, None) ∈ events_of run → (MysqlCursorClose, None) ∈ events_of run).
Proof.
  intros run. subst run.
  destruct (store_person _ _ _ _ _) as [[r w'] evs] eqn:Hrun.
  unfold events_of; cbn [fst snd].
  exec_store_in Hrun.
  all: split; [| split].
  all: try (intros fv0 pid0 raised0 H; elem_inv H;
            (injection H as -> -> _; split; [reflexivity | eexists; reflexivity])).
  all: try (intros H; elem_inv H; repeat constructor; fail).
  all: intros values0 raised0 H; elem_inv H; injection H as -> _.
  all: split; [eexists; repeat constructor |]; split; [repeat constructor |].
  all: eexists; split; [| reflexivity].
  all: cbn; repeat match goal with H : _ !! _ = Some _ |- _ => rewrite H; clear H end;
    reflexivity.
Qed.

(** X7.  [register_face] executes the [INSERT] only after the vector
    insert and the flush have succeeded, and its values are the columns
    [id], [name], [birthdate], [country], [city], [title], [org] of
    [person_data], in this order. *)
Theorem register_face_insert_before_metadata env model_name file_path threshold
    person_data w values raised :
  let run := register_face env model_name file_path threshold person_data w in
  (MysqlExecute values, raised) ∈ events_of run →
  (∃ face_vector person_id,
     person_data !! "id" = Some person_id
     ∧ (MilvusInsert face_vector person_id, None) ∈ events_of run)
  ∧ (MilvusFlush, None) ∈ events_of run
  ∧ mapM (λ k, person_data !! k) columns = Some values.
Proof.
  intros run H. subst run.
  destruct (register_face_cases env model_name file_path threshold person_data w)
    as [(_ & _ & [Hev | (p & row & _ & _ & _ & _ & Hev)])
       | (p & q & Hid & Hrun & _)].
  - rewrite Hev in H. elem_inv H.
  - rewrite Hev in H. elem_inv H.
  - rewrite Hrun in *. skip_prefix H.
    destruct (store_person_call_order env (run_inference env file_path model_name threshold)
                person_data p w) as (_ & Horder & _).
    destruct (Horder _ _ H) as ((fv & Hins) & Hflush & rest & Hrest & ->).
    unfold after_events, events_of in *. cbn [fst snd] in *.
    split; [exists fv, p; split; [exact Hid | do 2 right; exact Hins] |].
    split; [do 2 right; exact Hflush |].
    change (mapM (λ k, person_data !! k) columns)
      with (person_data !! "id" ≫= λ x,
            mapM (λ k, person_data !! k) (tail columns) ≫= λ l, mret (x :: l)).
    rewrite Hid. cbn [mbind option_bind]. rewrite Hrest. reflexivity.
Qed.

Lemma register_face_insert_before_metadata_witness :
  mapM (λ k, alice !! k) columns
  = Some [VInt 1; VStr "Alice"; VStr "1990-01-01"; VStr "NP"; VStr "Kathmandu";
          VStr "Dr"; VStr "ACME"].
Proof.
  apply (register_face_insert_before_metadata
           (with_execute_fault (Some "server has gone away") (no_faults one_face []))
           "m1" "img.jpg" (1 # 2) alice empty_world _
           (Some (PymysqlError "server has gone away"))).
  vm_compute. repeat constructor.
Defined.

(** X8.  Whenever [register_face] has opened a cursor it closes it, also
    when the [INSERT] or the commit raises (the [finally] clause). *)
Theorem register_face_closes_cursor env model_name file_path threshold person_data w :
  let run := register_face env model_name file_path threshold person_data w in
  (MysqlCursor, None) ∈ events_of run →
  (MysqlCursorClose, None) ∈ events_of run.
Proof.
  intros run H. subst run.
  destruct (register_face_cases env model_name file_path threshold person_data w)
    as [(_ & _ & [Hev | (p & row & _ & _ & _ & _ & Hev)])
       | (p & q & Hid & Hrun & _)].
  - rewrite Hev in H. elem_inv H.
  - rewrite Hev in H. elem_inv H.
  - rewrite Hrun in *. skip_prefix H.
    destruct (store_person_call_order env (run_inference env file_path model_name threshold)
                person_data p w) as (_ & _ & Hclose).
    unfold after_events, events_of in *. cbn [fst snd] in *.
    do 2 right. exact (Hclose H).
Qed.

Lemma register_face_closes_cursor_witness :
  (MysqlCursorClose, None)
  ∈ events_of (register_face
                 (with_execute_fault (Some "server has gone away") (no_faults one_face []))
                 "m1" "img.jpg" (1 # 2) alice empty_world).
Proof.
  apply (register_face_closes_cursor
           (with_execute_fault (Some "server has gone away") (no_faults one_face []))
           "m1" "img.jpg" (1 # 2) alice empty_world).
  vm_compute. repeat constructor.
Defined.

(** X9.  [register_face] stores one descriptor only: the vector it
    inserts is the first row of [face_feats], whatever follows it, and it
    is stored under [person_data["id"]]. *)
Theorem register_face_first_descriptor env model_name file_path threshold person_data w
    face_vector person_id raised :
  let run := register_face env model_name file_path threshold person_data w in
  (MilvusInsert face_vector person_id, raised) ∈ events_of run →
  person_data !! "id" = Some person_id
  ∧ ∃ rest, run_inference env file_path model_name threshold !! "face_feats"
            = Some (VArray (face_vector :: rest)).
Proof.
  intros run H. subst run.
  destruct (register_face_cases env model_name file_path threshold person_data w)
    as [(_ & _ & [Hev | (p & row & _ & _ & _ & _ & Hev)])
       | (p & q & Hid & Hrun & _)].
  - rewrite Hev in H. elem_inv H.
  - rewrite Hev in H. elem_inv H.
  - rewrite Hrun in *. skip_prefix H.
    destruct (store_person_call_order env (run_inference env file_path model_name threshold)
                person_data p w) as (Hfirst & _).
    destruct (Hfirst _ _ _ H) as (-> & Hrest).
    split; [exact Hid | exact Hrest].
Qed.

Lemma register_face_first_descriptor_witness :
  ∃ rest, two_faces !! "face_feats" = Some (VArray ([1 # 2; 1 # 4] :: rest)).
Proof.
  apply (register_face_first_descriptor (no_faults two_faces []) "m1" "img.jpg" (1 # 2)
           alice empty_world [1 # 2; 1 # 4] (VInt 1) None).
  vm_compute. repeat constructor.
Defined.

(** ** Registration: inputs that stop the call before any write *)

(** X10.  Without the key ["id"] in [person_data], [register_face] calls
    nothing but the inference, changes nothing and never reports success. *)
Theorem register_face_without_id env model_name file_path threshold person_data w :
  let run := register_face env model_name file_path threshold person_data w in
  person_data !! "id" = None →
  world_of run = w
  ∧ events_of run = [(RunInference file_path model_name threshold, None)]
  ∧ ∀ d, result_of run = Return d → d !! "status" = Some (VStr "failed").
Proof.
  intros run Hnone. subst run.
  destruct (register_face_cases env model_name file_path threshold person_data w)
    as [(Hw & Hfailed & [Hev | (p & row & Hid & _)]) | (p & q & Hid & _)];
    try congruence.
  repeat split; assumption.
Qed.

Lemma register_face_without_id_witness :
  events_of (register_face (no_faults one_face []) "m1" "img.jpg" (1 # 2)
               (delete "id" alice) empty_world)
  = [(RunInference "img.jpg" "m1" (1 # 2), None)].
Proof.
  apply (register_face_without_id (no_faults one_face []) "m1" "img.jpg" (1 # 2)
           (delete "id" alice) empty_world).
  apply lookup_delete_eq.
Defined.

Lemma store_person_no_descriptor env pred_dict person_data person_id w :
  pred_dict !! "face_feats" = Some (VArray []) →
  store_person env pred_dict person_data person_id w = (Raise IndexError, w, []).
Proof.
  intros Hfeats.
  destruct (store_person _ _ _ _ _) as [[r w'] evs] eqn:Hrun.
  unfold store_person in Hrun. red_in Hrun. rewrite Hfeats in Hrun.
  exec_in Hrun. reflexivity.
Qed.

(** X11.  When the extractor delivers an empty [face_feats],
    [register_face] writes nothing: it calls only the inference and the
    lookup, leaves the stores as they were and never reports success. *)
Theorem register_face_no_descriptor env model_name file_path threshold person_data w :
  let run := register_face env model_name file_path threshold person_data w in
  run_inference env file_path model_name threshold !! "face_feats" = Some (VArray []) →
  world_of run = w
  ∧ Forall (λ ev : Event, reads_only ev.1 = true) (events_of run)
  ∧ ∀ d, result_of run = Return d → d !! "status" = Some (VStr "failed").
Proof.
  intros run Hfeats. subst run.
  destruct (register_face_cases env model_name file_path threshold person_data w)
    as [(Hw & Hfailed & [Hev | (p & row & _ & _ & _ & _ & Hev)])
       | (p & q & Hid & Hrun & _)].
  - rewrite Hev. repeat split; try assumption. repeat constructor.
  - rewrite Hev. repeat split; try assumption. repeat constructor.
  - rewrite Hrun, (store_person_no_descriptor _ _ _ _ _ Hfeats).
    unfold after_events, result_of, world_of, events_of. cbn [fst snd app].
    split; [reflexivity |]. split; [repeat constructor |].
    intros d Hd. discriminate Hd.
Qed.

Lemma register_face_no_descriptor_witness :
  world_of (register_face (no_faults no_descriptor []) "m1" "img.jpg" (1 # 2)
              alice empty_world)
  = empty_world.
Proof.
  apply (register_face_no_descriptor (no_faults no_descriptor []) "m1" "img.jpg" (1 # 2)
           alice empty_world).
  vm_compute. reflexivity.
Defined.

(** ** Registration and lookup *)

Lemma store_person_stored env pred_dict person_data person_id w face_vector p :
  let run := store_person env pred_dict person_data person_id w in
  (MilvusInsert face_vector p, None) ∈ events_of run →
  (∀ p', (MilvusDelete p', None) ∉ events_of run) →
  {| row_embedding := face_vector; row_person_id := person_id |}
  ∈ collection (world_of run).
Proof.
  intros run. subst run.
  destruct (store_person _ _ _ _ _) as [[r w'] evs] eqn:Hrun.
  unfold events_of, world_of; cbn [fst snd].
  exec_store_in Hrun.
  all: intros Hins Hdel; elem_inv Hins.
  all: injection Hins as <- _.
  all: cbn [collection].
  all: try (apply elem_of_app; right; left; fail).
  all: exfalso; eapply Hdel; repeat constructor.
Qed.

(** X12.  Insert and lookup: once the vector insert of a [register_face]
    call has succeeded and no delete has succeeded after it, an answered
    [get_registered_face] for the identity reports success on the stores
    the call leaves, also when the call itself ended with an exception. *)
Theorem register_face_then_lookup env env' model_name file_path threshold person_data w
    face_vector person_id :
  let run := register_face env model_name file_path threshold person_data w in
  (MilvusInsert face_vector person_id, None) ∈ events_of run →
  (∀ p, (MilvusDelete p, None) ∉ events_of run) →
  query_fault env' = None →
  result_of (get_registered_face env' person_id (world_of run))
  = Return (success ("Person " +:+ py_str person_id +:+ " found")).
Proof.
  intros run H Hdel Hfault. subst run.
  destruct (get_registered_face_lookup env' person_id
              (world_of (register_face env model_name file_path threshold person_data w))
              Hfault) as (_ & _ & Hfound & _).
  apply Hfound. clear Hfound.
  destruct (register_face_cases env model_name file_path threshold person_data w)
    as [(_ & _ & [Hev | (p & row & _ & _ & _ & _ & Hev)])
       | (p & q & Hid & Hrun & _)].
  - rewrite Hev in H. elem_inv H.
  - rewrite Hev in H. elem_inv H.
  - rewrite Hrun in *. skip_prefix H.
    assert (Hp : person_id = p).
    { destruct (store_person_call_order env
                  (run_inference env file_path model_name threshold) person_data p w)
        as (Hfirst & _).
      destruct (Hfirst _ _ _ H) as [-> _]. reflexivity. }
    subst p.
    exists {| row_embedding := face_vector; row_person_id := person_id |}.
    split; [| reflexivity].
    unfold after_events, world_of. cbn [fst snd].
    apply (store_person_stored _ _ _ _ _ _ _ H).
    intros p' Hd. apply (Hdel p').
    unfold after_events, events_of. cbn [fst snd]. do 2 right. exact Hd.
Qed.

Lemma register_face_then_lookup_witness :
  result_of (get_registered_face (no_faults one_face []) (VInt 1)
               (world_of (register_face (no_faults one_face []) "m1" "img.jpg" (1 # 2)
                            alice empty_world)))
  = Return (success ("Person " +:+ py_str (VInt 1) +:+ " found")).
Proof.
  apply (register_face_then_lookup (no_faults one_face []) (no_faults one_face [])
           "m1" "img.jpg" (1 # 2) alice empty_world [1 # 2; 1 # 4] (VInt 1)).
  - vm_compute. repeat constructor.
  - intros p Hd. vm_compute in Hd. elem_inv Hd.
  - reflexivity.
Defined.

(** ** Unregistration: what is deleted and what is not *)

Lemma unregister_face_run env person_id w :
  unregister_face env person_id w
  = match delete_fault env with
    | None =>
        (Return (unregistered_outcome person_id),
         {| collection := filter (λ r, row_person_id r ≠ person_id) (collection w);
            mysql_pending := mysql_pending w;
            mysql_table := mysql_table w;
            redis := redis w |},
         [(MilvusDelete person_id, None)])
    | Some msg =>
        (Return (failed ("Person with id " +:+ py_str person_id +:+
                         " couldn't be unregistered")),
         w, [(MilvusDelete person_id, Some (MilvusException msg))])
    end.
Proof.
  destruct (unregister_face _ _ _) as [[r w'] evs] eqn:Hrun.
  exec_in Hrun; reflexivity.
Qed.


(** X14.  Delete and lookup: after an answered [unregister_face], an
    answered [get_registered_face] for the identity reports that the
    person is not found, whatever the collection held. *)
Theorem unregister_face_then_lookup env env' person_id w :
  let run := unregister_face env person_id w in
  delete_fault env = None →
  query_fault env' = None →
  result_of (get_registered_face env' person_id (world_of run))
  = Return (failed ("Person with id " +:+ py_str person_id +:+ " not found in database")).
Proof.
  intros run Hdel Hquery. subst run.
  destruct (get_registered_face_lookup env' person_id
              (world_of (unregister_face env person_id w)) Hquery)
    as (_ & _ & _ & Habsent).
  apply Habsent. intros row Hrow.
  rewrite unregister_face_run, Hdel in Hrow. unfold world_of in Hrow.
  cbn [fst snd collection] in Hrow.
  apply list_elem_of_filter in Hrow as [Hne _]. exact Hne.
Qed.

Lemma unregister_face_then_lookup_witness :
  result_of (get_registered_face (no_faults one_face []) (VInt 1)
               (world_of (unregister_face (no_faults one_face []) (VInt 1) alice_stored)))
  = Return (failed ("Person with id " +:+ py_str (VInt 1) +:+ " not found in database")).
Proof.
  apply (unregister_face_then_lookup (no_faults one_face []) (no_faults one_face [])
           (VInt 1) alice_stored); reflexivity.
Defined.


(** ** The lookup of api/milvus.py *)

(** X15.  [get_registered_person] makes the same query as
    [get_registered_face] and changes nothing.  Every dictionary it
    returns is the one [get_registered_face] returns, with status
    ["failed"]; it returns [None], not a dictionary, exactly when the query
    is answered and the person is found. *)
Theorem get_registered_person_agrees env person_id w :
  let person := get_registered_person env person_id w in
  let face := get_registered_face env person_id w in
  world_of person = w
  ∧ events_of person = events_of face
  ∧ (∀ d, result_of person = Return (Some d) →
          result_of face = Return d ∧ d !! "status" = Some (VStr "failed"))
  ∧ (result_of person = Return None ↔
     query_fault env = None
     ∧ ∃ row, row ∈ collection w ∧ row_person_id row = person_id).
Proof.
  intros person face. subst person face.
  destruct (get_registered_person _ _ _) as [[r w'] evs] eqn:Hperson.
  destruct (get_registered_face _ _ _) as [[r0 w0] evs0] eqn:Hface.
  unfold result_of, events_of, world_of; cbn [fst snd].
  exec_in Hperson; red_in Hface;
    repeat match goal with
           | H : query_fault _ = _ |- _ => rewrite H in Hface; clear H
           | H : take _ _ = _ |- _ => rewrite H in Hface
           end;
    exec_in Hface.
  - do 2 (split; [reflexivity |]). split.
    + intros d [= <-]. split; [reflexivity | apply lookup_status].
    + split; [intros Hnone; discriminate Hnone | intros [Hq _]; discriminate Hq].
  - do 2 (split; [reflexivity |]). split.
    + intros d [= <-]. split; [reflexivity | apply lookup_status].
    + split; [intros Hnone; discriminate Hnone |].
      intros (_ & row & Hin & Hrow).
      match goal with H : take _ _ = [] |- _ =>
        exfalso; exact (query_rows_nil _ _ H row Hin Hrow) end.
  - do 2 (split; [reflexivity |]). split; [intros d Hd; discriminate Hd |].
    split; [intros _ | reflexivity]. split; [reflexivity |].
    match goal with H : take _ _ = _ :: _ |- _ =>
      apply query_rows_head in H as (row & [Hrow Hin]%list_elem_of_filter & _) end.
    exists row. split; assumption.
  - match goal with H : take _ _ = _ :: _ |- _ =>
      apply query_rows_head in H as (row & _ & ->) end.
    rewrite lookup_singleton_eq in *. discriminate.
Qed.

Lemma get_registered_person_agrees_witness :
  result_of (get_registered_person (no_faults one_face []) (VInt 1) alice_stored)
  = Return None.
Proof.
  apply (get_registered_person_agrees (no_faults one_face []) (VInt 1) alice_stored).
  split; [reflexivity |]. exists alice_row. split; [left | reflexivity].
Defined.

(** ** Recognition: what it reads and an empty result group *)

(** X16.  [recognize_face] only reads: on every input it leaves the
    collection, MySQL and Redis as they were and calls nothing but the
    inference and the search. *)
Theorem recognize_face_reads_only env model_name file_path threshold face_dist_threshold w :
  let run := recognize_face env model_name file_path threshold face_dist_threshold w in
  world_of run = w
  ∧ Forall (λ ev : Event, recognize_call ev.1 = true) (events_of run).
Proof.
  intros run. subst run.
  destruct (recognize_face _ _ _ _ _ _) as [[r w'] evs] eqn:Hrun.
  unfold events_of, world_of; cbn [fst snd].
  exec_in Hrun.
  all: split; [reflexivity | repeat constructor].
Qed.

Lemma list_lt_nil_r (a : list Q) : list_lt a [] = false.
Proof. destruct a; reflexivity. Qed.

(** An empty result group comes first in the sort. *)
Lemma sorted_empty_group_first (results : list Hits) :
  [] ∈ results → ∃ t, sorted results (λ k, distances k) = [] :: t.
Proof.
  induction results as [|x l IH]; intros Hin; [apply elem_of_nil in Hin; contradiction|].
  unfold sorted. cbn [foldr]. fold (sorted l (λ k, distances k)).
  apply elem_of_cons in Hin as [<- | Hin].
  - destruct (sorted l (λ k, distances k)) as [|y s]; cbn; [eauto|].
    rewrite list_lt_nil_r. eauto.
  - destruct (IH Hin) as [t ->]. cbn. destruct x as [|c x]; cbn; eauto.
Qed.

(** X17.  When the search is answered with a result group that has no
    hit (the collection holds nothing near, or nothing at all),
    [recognize_face] does not return the "no saved face entries"
    dictionary nor any other: the empty group sorts to the front and
    indexing it raises [IndexError]. *)
Theorem recognize_face_empty_group env model_name file_path threshold
    face_dist_threshold w data :
  let run := recognize_face env model_name file_path threshold face_dist_threshold w in
  (MilvusSearch data, None) ∈ events_of run →
  [] ∈ search_hits env data →
  result_of run = Raise IndexError.
Proof.
  intros run Hsearch Hempty. subst run.
  rewrite (recognize_face_decides _ _ _ _ _ _ _ Hsearch).
  unfold decision, selected.
  destruct (sorted_empty_group_first _ Hempty) as [t ->].
  destruct (search_hits env data); [apply elem_of_nil in Hempty; contradiction|].
  reflexivity.
Qed.

Lemma recognize_face_empty_group_witness :
  result_of (recognize_face (no_faults one_face [[]]) "m1" "img.jpg" (1 # 2) (1 # 10)
               empty_world)
  = Raise IndexError.
Proof.
  apply (recognize_face_empty_group (no_faults one_face [[]]) "m1" "img.jpg" (1 # 2)
           (1 # 10) empty_world (VArray [[1 # 2; 1 # 4]])).
  - vm_compute. repeat constructor.
  - left.
Defined.

(** ** The endpoints *)

Ltac red_route_in H :=
  cbv beta iota zeta delta
    [recognize_person_file recognize_person_url RecognizePersonProcessTask_run
     file_read cache_file_locally add_remove_task makedirs download_url_file
     new_input_model on_stores try_except_Exception route_call
     mbind R_bind mret R_ret input_model_name input_file_path input_model_threshold] in H;
  cbn [stores tasks] in H.

Ltac step_route_in H :=
  lazymatch type of H with
  | context [match ?x with _ => _ end] =>
      let y := inner x in
      destruct y eqn:?; red_route_in H
  end.

Ltac exec_route_in H :=
  red_route_in H; repeat step_route_in H; cbn [app fmap list_fmap] in H;
  injection H as <- <- <-.

Lemma route_failure_dict (message : string) :
  <[ "message" := VStr message ]> (<[ "status" := VStr "failed" ]> (∅ : dict))
  = failed message.
Proof.
  unfold failed. rewrite insert_insert_ne by done. reflexivity.
Qed.

Lemma recognize_person_file_run renv func s :
  let path := file_cache_path renv in
  let inner := func (slow_model renv) path (input_threshold renv) (stores s) in
  let run := recognize_person_file renv func s in
  match read_fault renv, cache_fault renv with
  | None, None =>
      tasks (route_state run) = tasks s ++ [path]
      ∧ (∃ rest, route_events run
                 = [(FileRead, None); (CacheFileLocally path, None);
                    (AddRemoveTask path, None)] ++ rest)
      ∧ match input_fault renv with
        | None =>
            stores (route_state run) = world_of inner
            ∧ route_result run
              = match result_of inner with
                | Return d => Return d
                | Raise _ => Return (failed "failed to recognize face from image")
                end
        | Some _ =>
            stores (route_state run) = stores s
            ∧ route_result run = Return (failed "failed to recognize face from image")
        end
  | _, _ =>
      route_state run = s
      ∧ Forall (λ ev : RouteEvent, is_service ev.1 = false) (route_events run)
      ∧ route_result run = Return (failed "failed to recognize face from image")
  end.
Proof.
  intros path inner run. subst path inner run.
  destruct (recognize_person_file _ _ _) as [[r s'] evs] eqn:Hrun.
  unfold route_result, route_state, route_events, result_of, world_of, file_cache_path;
    cbn [fst snd].
  exec_route_in Hrun.
  all: cbn [stores tasks fst snd].
  all: rewrite ?route_failure_dict.
  all: repeat split; try reflexivity; eauto.
  all: first [ destruct s; reflexivity | repeat constructor ].
Qed.

Lemma recognize_person_url_run renv func img_url s :
  let path := file_cache_path renv in
  let inner := func (slow_model renv) path (input_threshold renv) (stores s) in
  let run := recognize_person_url renv func img_url s in
  match makedirs_fault renv, download_fault renv with
  | None, None =>
      tasks (route_state run) = tasks s ++ [path]
      ∧ (∃ rest, route_events run
                 = [(MakeDirs (ROOT_DOWNLOAD_PATH renv), None);
                    (DownloadUrlFile img_url path, None);
                    (AddRemoveTask path, None)] ++ rest)
      ∧ match input_fault renv with
        | None =>
            stores (route_state run) = world_of inner
            ∧ route_result run
              = match result_of inner with
                | Return d => Return d
                | Raise _ =>
                    Return (failed ("failed to recognize face  from image downloaded from "
                                    +:+ img_url))
                end
        | Some _ =>
            stores (route_state run) = stores s
            ∧ route_result run
              = Return (failed ("failed to recognize face  from image downloaded from "
                                +:+ img_url))
        end
  | _, _ =>
      route_state run = s
      ∧ Forall (λ ev : RouteEvent, is_service ev.1 = false) (route_events run)
      ∧ route_result run
        = Return (failed ("couldn't download image from '" +:+ img_url +:+
                          "'. Not a valid link."))
  end.
Proof.
  intros path inner run. subst path inner run.
  destruct (recognize_person_url _ _ _ _) as [[r s'] evs] eqn:Hrun.
  unfold route_result, route_state, route_events, result_of, world_of, file_cache_path;
    cbn [fst snd].
  exec_route_in Hrun.
  all: cbn [stores tasks fst snd].
  all: rewrite ?route_failure_dict.
  all: repeat split; try reflexivity; eauto.
  all: first [ destruct s; reflexivity | repeat constructor ].
Qed.

(** X18.  [recognize_person_file] never raises.  It returns the
    dictionary of [func] when reading the upload, caching it, building the
    input and [func] itself all succeed; when any of them raises, whatever
    the exception, it returns status ["failed"] with the message
    ["failed to recognize face from image"]. *)
Theorem recognize_person_file_result renv func s :
  let inner := func (slow_model renv) (file_cache_path renv) (input_threshold renv)
                 (stores s) in
  let run := recognize_person_file renv func s in
  (∃ d, route_result run = Return d)
  ∧ (∀ d, read_fault renv = None → cache_fault renv = None → input_fault renv = None →
          result_of inner = Return d → route_result run = Return d)
  ∧ (is_Some (read_fault renv) ∨ is_Some (cache_fault renv) ∨ is_Some (input_fault renv)
     ∨ (∃ e, result_of inner = Raise e) →
     route_result run = Return (failed "failed to recognize face from image")).
Proof.
  intros inner run. subst inner run.
  pose proof (recognize_person_file_run renv func s) as Hrun. cbv zeta in Hrun.
  destruct (read_fault renv) as [e1|], (cache_fault renv) as [e2|];
    try (destruct Hrun as (_ & _ & Hres); rewrite Hres;
         split; [eauto |]; split; [intros; discriminate | reflexivity]).
  destruct Hrun as (_ & _ & Hrun).
  destruct (input_fault renv) as [e3|].
  - destruct Hrun as [_ Hres]. rewrite Hres.
    split; [eauto |]. split; [intros; discriminate | reflexivity].
  - destruct Hrun as [_ Hres]. rewrite Hres.
    destruct (result_of _) as [d0|e0].
    + split; [eauto |]. split; [intros d _ _ _ [= <-]; reflexivity |].
      intros [[x [=]] | [[x [=]] | [[x [=]] | [e [=]]]]].
    + split; [eauto |]. split; [intros d _ _ _ [=] | reflexivity].
Qed.

Lemma recognize_person_file_result_witness :
  route_result (recognize_person_file route_no_faults (λ _ _ _, raise IndexError)
                  (route_start empty_world))
  = Return (failed "failed to recognize face from image").
Proof.
  apply (recognize_person_file_result route_no_faults (λ _ _ _, raise IndexError)
           (route_start empty_world)).
  do 3 right. exists IndexError. reflexivity.
Defined.

(** X19.  Both endpoints schedule the removal of the cache path as soon
    as the call that stores the image has returned, before the input model
    is built and [func] is called, so the removal is scheduled also when
    the recognition raises.  When storing the image raised (the read or
    [cache_file_locally]; [os.makedirs] or [download_url_file]), no removal
    is scheduled. *)
Theorem routes_schedule_cleanup renv func img_url s :
  let path := file_cache_path renv in
  let by_file := recognize_person_file renv func s in
  let by_url := recognize_person_url renv func img_url s in
  (read_fault renv = None → cache_fault renv = None →
   tasks (route_state by_file) = tasks s ++ [path]
   ∧ ∃ rest, route_events by_file
             = [(FileRead, None); (CacheFileLocally path, None);
                (AddRemoveTask path, None)] ++ rest)
  ∧ (is_Some (read_fault renv) ∨ is_Some (cache_fault renv) →
     tasks (route_state by_file) = tasks s)
  ∧ (makedirs_fault renv = None → download_fault renv = None →
     tasks (route_state by_url) = tasks s ++ [path]
     ∧ ∃ rest, route_events by_url
               = [(MakeDirs (ROOT_DOWNLOAD_PATH renv), None);
                  (DownloadUrlFile img_url path, None);
                  (AddRemoveTask path, None)] ++ rest)
  ∧ (is_Some (makedirs_fault renv) ∨ is_Some (download_fault renv) →
     tasks (route_state by_url) = tasks s).
Proof.
  intros path by_file by_url. subst path by_file by_url.
  pose proof (recognize_person_file_run renv func s) as Hfile.
  pose proof (recognize_person_url_run renv func img_url s) as Hurl.
  cbv zeta in Hfile, Hurl.
  split; [| split; [| split]].
  - intros Hread Hcache. rewrite Hread, Hcache in Hfile.
    destruct Hfile as (Htasks & Hevents & _). split; assumption.
  - intros Hfault.
    destruct (read_fault renv) as [e1|], (cache_fault renv) as [e2|];
      try (destruct Hfile as [-> _]; reflexivity).
    destruct Hfault as [[x [=]] | [x [=]]].
  - intros Hmake Hdown. rewrite Hmake, Hdown in Hurl.
    destruct Hurl as (Htasks & Hevents & _). split; assumption.
  - intros Hfault.
    destruct (makedirs_fault renv) as [e1|], (download_fault renv) as [e2|];
      try (destruct Hurl as [-> _]; reflexivity).
    destruct Hfault as [[x [=]] | [x [=]]].
Qed.

Lemma routes_schedule_cleanup_witness :
  tasks (route_state (recognize_person_url route_no_faults (λ _ _ _, raise IndexError)
                        "http://example.org/a.jpg" (route_start empty_world)))
  = [".data_cache/1b4e28ba.jpg"]
  ∧ tasks (route_state (recognize_person_url
                          (with_download_fault (Some TypeError) route_no_faults)
                          (λ _ _ _, raise IndexError)
                          "http://example.org/a.jpg" (route_start empty_world)))
    = [].
Proof.
  split.
  - apply (routes_schedule_cleanup route_no_faults (λ _ _ _, raise IndexError)
             "http://example.org/a.jpg" (route_start empty_world)); reflexivity.
  - apply (routes_schedule_cleanup (with_download_fault (Some TypeError) route_no_faults)
             (λ _ _ _, raise IndexError)
             "http://example.org/a.jpg" (route_start empty_world)).
    right. eexists. reflexivity.
Defined.

(** X20.  When [os.makedirs] or the download raises,
    [recognize_person_url] returns status ["failed"] with the message that
    names the URL; it never calls [func], leaves the stores as they were
    and schedules no removal. *)
Theorem recognize_person_url_download_failure renv func img_url s :
  let run := recognize_person_url renv func img_url s in
  is_Some (makedirs_fault renv) ∨ is_Some (download_fault renv) →
  route_result run
  = Return (failed ("couldn't download image from '" +:+ img_url +:+ "'. Not a valid link."))
  ∧ stores (route_state run) = stores s
  ∧ tasks (route_state run) = tasks s
  ∧ Forall (λ ev : RouteEvent, is_service ev.1 = false) (route_events run).
Proof.
  intros run Hfault. subst run.
  pose proof (recognize_person_url_run renv func img_url s) as Hrun. cbv zeta in Hrun.
  destruct (makedirs_fault renv) as [e1|], (download_fault renv) as [e2|];
    try (destruct Hrun as (-> & Hev & Hres); repeat split; assumption).
  destruct Hfault as [[x [=]] | [x [=]]].
Qed.

Lemma recognize_person_url_download_failure_witness :
  route_result (recognize_person_url (with_download_fault (Some TypeError) route_no_faults)
                  (λ _ _ _, mret (match_outcome (VInt 1)))
                  "http://example.org/a.jpg" (route_start empty_world))
  = Return (failed ("couldn't download image from '" +:+ "http://example.org/a.jpg" +:+
                    "'. Not a valid link.")).
Proof.
  apply (recognize_person_url_download_failure
           (with_download_fault (Some TypeError) route_no_faults)
           (λ _ _ _, mret (match_outcome (VInt 1)))
           "http://example.org/a.jpg" (route_start empty_world)).
  right. eexists. reflexivity.
Defined.

(** X21.  [recognize_person_url] never raises, and once the image is
    downloaded it behaves like the file endpoint: the dictionary of [func]
    is passed on, and an exception of [InputModel] or of [func] gives
    status ["failed"] with the message that names the URL. *)
Theorem recognize_person_url_result renv func img_url s :
  let inner := func (slow_model renv) (file_cache_path renv) (input_threshold renv)
                 (stores s) in
  let run := recognize_person_url renv func img_url s in
  (∃ d, route_result run = Return d)
  ∧ (makedirs_fault renv = None → download_fault renv = None →
     (∀ d, input_fault renv = None → result_of inner = Return d →
           route_result run = Return d)
     ∧ (is_Some (input_fault renv) ∨ (∃ e, result_of inner = Raise e) →
        route_result run
        = Return (failed ("failed to recognize face  from image downloaded from "
                          +:+ img_url)))).
Proof.
  intros inner run. subst inner run.
  pose proof (recognize_person_url_run renv func img_url s) as Hrun. cbv zeta in Hrun.
  destruct (makedirs_fault renv) as [e1|], (download_fault renv) as [e2|];
    try (destruct Hrun as (_ & _ & Hres); rewrite Hres;
         split; [eauto |]; intros; discriminate).
  destruct Hrun as (_ & _ & Hrun).
  destruct (input_fault renv) as [e3|].
  - destruct Hrun as [_ Hres]. rewrite Hres.
    split; [eauto |]. intros _ _. split; [intros; discriminate | reflexivity].
  - destruct Hrun as [_ Hres]. rewrite Hres.
    destruct (result_of _) as [d0|e0].
    + split; [eauto |]. intros _ _. split; [intros d _ [= <-]; reflexivity |].
      intros [[x [=]] | [e [=]]].
    + split; [eauto |]. intros _ _. split; [intros d _ [=] | reflexivity].
Qed.

Lemma recognize_person_url_result_witness :
  route_result (recognize_person_url route_no_faults
                  (λ _ _ _, mret (match_outcome (VInt 1)))
                  "http://example.org/a.jpg" (route_start alice_stored))
  = Return (match_outcome (VInt 1)).
Proof.
  apply (recognize_person_url_result route_no_faults
           (λ _ _ _, mret (match_outcome (VInt 1)))
           "http://example.org/a.jpg" (route_start alice_stored));
    reflexivity.
Defined.

(** ** Opening the collection *)

(** X23.  [get_milvus_connec] creates the collection only when the server
    does not have it.  Afterwards the collection exists; a collection that
    existed keeps its schema, its index and its entities, and every other
    collection is untouched.  A second call changes nothing and creates
    nothing, whatever dimension, metric and index type it is given: for an
    existing collection these parameters are ignored. *)
Theorem get_milvus_connec_idempotent (collection_name host host' : string)
    (port port' vector_dim vector_dim' : Z) (metric metric' index_type index_type' : string)
    (server : MilvusSetup.Server) :
  let first := MilvusSetup.get_milvus_connec collection_name host port vector_dim
                 metric index_type server in
  let second := MilvusSetup.get_milvus_connec collection_name host' port' vector_dim'
                  metric' index_type' first.1.2 in
  is_Some (first.1.2 !! collection_name)
  ∧ (∀ c, server !! collection_name = Some c → first.1.2 = server)
  ∧ (∀ other, other ≠ collection_name → first.1.2 !! other = server !! other)
  ∧ second.1.1 = first.1.1
  ∧ second.1.2 = first.1.2
  ∧ Forall (λ c, MilvusSetup.creates c = false) second.2.
Proof.
  intros first second. subst first second.
  unfold MilvusSetup.get_milvus_connec.
  destruct (server !! collection_name) as [c|] eqn:Hc; cbn [fst snd].
  - rewrite Hc. cbn [fst snd].
    repeat split; eauto.
  - rewrite lookup_insert_eq. cbn [fst snd].
    split; [eauto |]. split; [intros c [=] |].
    split; [intros other Hne; apply lookup_insert_ne; congruence |].
    repeat split; repeat constructor.
Qed.
